(** * bigpipe: route resolution and expiring caches of [index.js]

    A shallow embedding of [exports.attach] and of the middleware it
    returns.  Host objects the file only calls into (the URL parser, the
    expiring map, the router, the module loader, the response) are modelled
    next to the code that uses them; every such model says so. *)

From Stdlib Require Import ZArith Ascii String.
From stdpp Require Import base gmap strings list fin_maps.

Local Open Scope string_scope.
Local Open Scope list_scope.
Local Open Scope Z_scope.

(** ** JavaScript strings *)

Module Js.

(** [String.prototype.toLowerCase] on the ASCII range: the letters
    [A]..[Z] (codes 65..90) move to [a]..[z], everything else stays. *)
Definition lower_char (c : ascii) : ascii :=
  let n := nat_of_ascii c in
  if ((65 <=? n)%nat && (n <=? 90)%nat)%bool then ascii_of_nat (n + 32) else c.

Fixpoint toLowerCase (s : string) : string :=
  match s with
  | EmptyString => EmptyString
  | String c s' => String (lower_char c) (toLowerCase s')
  end.

(** Equality of two strings up to the case of their ASCII letters,
    character by character: what "equal case-insensitively" says, written
    without going through [toLowerCase]. *)
Definition same_letter (a b : ascii) : bool :=
  let x := nat_of_ascii a in
  let y := nat_of_ascii b in
  ((x =? y)%nat
   || ((65 <=? x)%nat && (x <=? 90)%nat && (y =? x + 32)%nat)
   || ((65 <=? y)%nat && (y <=? 90)%nat && (x =? y + 32)%nat))%bool.

Fixpoint eq_ignore_case (s t : string) : bool :=
  match s, t with
  | EmptyString, EmptyString => true
  | String a s', String b t' => (same_letter a b && eq_ignore_case s' t')%bool
  | _, _ => false
  end.

(** The values [req.sessionID] takes: the property is absent
    ([undefined]), [null], or a string (possibly empty). *)
Inductive Session : Type :=
| SUndefined
| SNull
| SString (s : string).

(** [session + ':'] converts the left operand with ToString. *)
Definition session_to_string (s : Session) : string :=
  match s with
  | SUndefined => "undefined"
  | SNull => "null"
  | SString x => x
  end.

(** ToString of a property that holds a string or [null]. *)
Definition nullable_to_string (o : option string) : string :=
  match o with
  | Some x => x
  | None => "null"
  end.

(** The results of [typeof]. *)
Inductive Typeof : Type :=
| TUndefined | TObject | TBoolean | TNumber | TString | TFunction.

Definition typeof_name (t : Typeof) : string :=
  match t with
  | TUndefined => "undefined"
  | TObject => "object"
  | TBoolean => "boolean"
  | TNumber => "number"
  | TString => "string"
  | TFunction => "function"
  end.

End Js.

(** ** [url.parse] *)

Module Url.

(** The fields of a parsed URL the middleware and the routers can read. *)
Record t : Type := mk {
  href : string;
  pathname : option string;
  search : option string;
  hash : option string
}.

(** [break_at c s]: the part of [s] before the first [c], and the rest of
    [s] from that [c] on (empty when [c] does not occur). *)
Fixpoint break_at (c : ascii) (s : string) : string * string :=
  match s with
  | EmptyString => (EmptyString, EmptyString)
  | String a s' =>
      if Ascii.eqb a c then (EmptyString, s)
      else let '(p, r) := break_at c s' in (String a p, r)
  end.

Definition non_empty (s : string) : option string :=
  match s with
  | EmptyString => None
  | _ => Some s
  end.

(** Modelled from the spec: [url] is a built-in module of the platform, not
    part of the source file; the spec has the pathname as the URL with the
    query stripped.  On a request target in origin form
    ([/path?query#fragment], what [req.url] holds) the fragment is cut at the
    first [#], the query at the first [?] of what is left, and the rest is
    the pathname; a part that is empty is [null]. *)
Definition parse (u : string) : t :=
  let '(rest, h) := break_at "#" u in
  let '(p, q) := break_at "?" rest in
  {| href := u; pathname := non_empty p; search := non_empty q; hash := non_empty h |}.

End Url.

(** ** The expiring map *)

Module Expirable.

(** Modelled from the spec: the [expirable] package is not part of the
    source file.  The parts of a duration string, for [parse] below: the
    value of a decimal digit, the number a string starts with, and the
    milliseconds in a unit of time. *)
Definition digit_value (c : ascii) : option Z :=
  let n := nat_of_ascii c in
  if ((48 <=? n)%nat && (n <=? 57)%nat)%bool then Some (Z.of_nat n - 48) else None.

Fixpoint read_number (acc : Z) (s : string) : Z * string :=
  match s with
  | String c s' =>
      match digit_value c with
      | Some d => read_number (10 * acc + d) s'
      | None => (acc, s)
      end
  | EmptyString => (acc, s)
  end.

Definition unit_ms (u : string) : option Z :=
  if bool_decide (u = "millisecond" ∨ u = "milliseconds" ∨ u = "ms") then Some 1
  else if bool_decide (u = "second" ∨ u = "seconds") then Some 1000
  else if bool_decide (u = "minute" ∨ u = "minutes") then Some 60000
  else if bool_decide (u = "hour" ∨ u = "hours") then Some 3600000
  else if bool_decide (u = "day" ∨ u = "days") then Some 86400000
  else None.

Definition five_minutes : Z := 300000.

(** Modelled from the spec: the [expirable] package is not part of the
    source file.  A duration string is a decimal number, a space and a unit;
    the result is in milliseconds, and a string that does not parse gives
    the default window of five minutes. *)
Definition parse (d : string) : Z :=
  match read_number 0 d with
  | (n, String " " u) =>
      match unit_ms u with
      | Some k => n * k
      | None => five_minutes
      end
  | _ => five_minutes
  end.

(** Modelled from the spec: an entry is a value and the time it was last
    touched. *)
Record Entry (V : Type) : Type := mkEntry {
  value : V;
  last : Z
}.
Arguments mkEntry {V} _ _.
Arguments value {V} _.
Arguments last {V} _.

(** Modelled from the spec: the [expirable] package is not part of the
    source file.  The map holds its idle window [expire] (milliseconds),
    whether a successful [get] refreshes the entry ([touch]; the spec
    leaves the policy open and asks only that it be one policy
    throughout), and the entries by key. *)
Record t (V : Type) : Type := mk {
  expire : Z;
  touch : bool;
  cache : gmap string (Entry V)
}.
Arguments mk {V} _ _ _.
Arguments expire {V} _.
Arguments touch {V} _.
Arguments cache {V} _.

Section Operations.
Context {V : Type}.

(** Modelled from the spec: [new Expirable(ttl)] is an empty map with the
    window [ttl]. *)
Definition new (policy : bool) (ttl : string) : t V :=
  {| expire := parse ttl; touch := policy; cache := ∅ |}.

(** Modelled from the spec: [set] inserts or overwrites and resets the
    entry's idle timer. *)
Definition set (now : Z) (key : string) (v : V) (m : t V) : t V :=
  {| expire := expire m; touch := touch m;
     cache := <[key := mkEntry v now]> (cache m) |}.

(** Modelled from the spec: [get] is absent for a key never set and for
    an entry idle for [expire] or longer, which it purges; otherwise it
    returns the value, refreshing the entry when the policy says so. *)
Definition get (now : Z) (key : string) (m : t V) : option V * t V :=
  match cache m !! key with
  | None => (None, m)
  | Some e =>
      if expire m <=? now - last e
      then (None, {| expire := expire m; touch := touch m;
                     cache := delete key (cache m) |})
      else if touch m
           then (Some (value e),
                 {| expire := expire m; touch := touch m;
                    cache := <[key := mkEntry (value e) now]> (cache m) |})
           else (Some (value e), m)
  end.

End Operations.

End Expirable.


(** ** Errors *)

(** A computation that returns or throws an [Error] with a message. *)
Inductive Result (A : Type) : Type :=
| Ok (a : A)
| Throw (message : string).
Arguments Ok {A} _.
Arguments Throw {A} _.

#[export] Instance Result_ret : MRet Result := fun A a => Ok a.

#[export] Instance Result_bind : MBind Result := fun A B k r =>
  match r with
  | Ok a => k a
  | Throw e => Throw e
  end.

Definition throws {A : Type} (r : Result A) : Prop :=
  exists e, r = Throw e.

(** ** Pages, routers and the values of [options.pages] *)

Definition Params : Type := list (string * string).

(** What the middleware uses of a router: [test] and [exec], both applied to
    the parsed URL. *)
Record Router : Type := mkRouter {
  test : Url.t -> bool;
  exec : Url.t -> Params
}.

(** A constructor function: [prototype.method], [prototype.path], the
    [router] property when the function brings its own, and
    [fn_initialized], [Some p] when the function object is itself
    [instanceof Page] and [page.path] prints as [p]. *)
Record PageFn : Type := mkPageFn {
  fn_name : string;
  fn_method : string;
  fn_path : string;
  fn_router : option Router;
  fn_initialized : option string
}.

(** The values an element of [options.pages], a loaded module, or
    [options.pages] itself can be. *)
#[warnings="-register-all"]
Inductive Value : Type :=
| VUndefined
| VNull
| VBoolean (b : bool)
| VNumber (n : Z)
| VString (s : string)
| VObject
| VPageInstance (path : string)
| VArray (items : list Value)
| VFunction (f : PageFn).

Definition typeof (v : Value) : Js.Typeof :=
  match v with
  | VUndefined => Js.TUndefined
  | VNull => Js.TObject
  | VBoolean _ => Js.TBoolean
  | VNumber _ => Js.TNumber
  | VString _ => Js.TString
  | VObject => Js.TObject
  | VPageInstance _ => Js.TObject
  | VArray _ => Js.TObject
  | VFunction _ => Js.TFunction
  end.

(** A registered page: the constructor with its router in place. *)
Record Page : Type := mkPage {
  ctor : PageFn;
  router : Router
}.

(** The collaborators [attach] calls: the module loader, the directory
    listing, [path.resolve], the [Routable] constructor, the default
    [Engine] constructor (run for its effect: it returns or throws), and the
    refresh policy of the expiring maps. *)
Record Host : Type := mkHost {
  require : string -> Result Value;
  readdirSync : Value -> Result (list string);
  resolve : Value -> string -> string;
  Routable : string -> Result Router;
  default_Engine : Result unit;
  touch_policy : bool
}.

(** The [options] object: each field is [None] when the property is
    absent. *)
Record Options : Type := mkOptions {
  opt_engine : option (Result unit);
  opt_404 : option PageFn;
  opt_pages : option Value
}.

Definition no_options : Options :=
  {| opt_engine := None; opt_404 := None; opt_pages := None |}.

(** ** Requests, responses and page instances *)

Record Request : Type := mkRequest {
  method : string;
  url : string;
  sessionID : Js.Session
}.

(** Modelled from the spec: the response object belongs to the host's HTTP
    server, not to the source file.  As far as this file acts on it, it has
    the status code that will go out with it, whether it is finished, and
    what has been sent for it: each response written, as the status it went
    out with and its body, oldest first. *)
Record Response : Type := mkResponse {
  statusCode : Z;
  finished : bool;
  sent : list (Z * string)
}.

(** The response as the host hands it to the middleware. *)
Definition fresh_response : Response :=
  {| statusCode := 200; finished := false; sent := [] |}.

(** [fivehundered.bind(fivehundered, req, res)] *)
Inductive Listener : Type :=
| Fivehundered (req : Request).

(** [new P({ req: req, res: res, params: params })], with the listeners
    registered on its ['error'] event. *)
Record Instance : Type := mkInstance {
  inst_of : PageFn;
  inst_req : Request;
  inst_params : Params;
  on_error : list Listener
}.

(** The value of the route cache: [{ Page: ..., params: ... }]. *)
Record Route : Type := mkRoute {
  route_Page : Page;
  route_params : Params
}.

(** What the middleware closes over. *)
Record Attached : Type := mkAttached {
  instances : Expirable.t Instance;
  routes : Expirable.t Route;
  NotFound : option PageFn;
  pages : list Page
}.

(** ** [exports.attach] *)

(** [if (typeof page === 'string') page = require(page)] *)
Definition load (h : Host) (page : Value) : Result Value :=
  match page with
  | VString file => require h file
  | _ => Ok page
  end.

(** The callback of [pages.map]. *)
Definition map_page (h : Host) (page : Value) : Result Page :=
  page ← load h page;
  match page with
  | VFunction f =>
      match fn_initialized f with
      | Some p => Throw ("The supplied Page (" +:+ p +:+ ") is already initialized")
      | None =>
          match fn_router f with
          | Some r => Ok {| ctor := f; router := r |}
          | None => r ← Routable h (fn_path f); Ok {| ctor := f; router := r |}
          end
      end
  | v => Throw ("Invalid page type: " +:+ Js.typeof_name (typeof v))
  end.

(** [pages.map(...)]: in order, stopping at the first throw. *)
Fixpoint map_pages (h : Host) (l : list Value) : Result (list Page) :=
  match l with
  | [] => Ok []
  | v :: l' => p ← map_page h v; ps ← map_pages h l'; Ok (p :: ps)
  end.

(** [if (!Array.isArray(pages)) pages = readdirSync(pages).map(resolve)] *)
Definition listing (h : Host) (pages : Value) : Result (list Value) :=
  match pages with
  | VArray items => Ok items
  | dir => files ← readdirSync h dir;
           Ok (map (fun file => VString (resolve h dir file)) files)
  end.

Definition attach (h : Host) (options : option Options) : Result Attached :=
  let options := default no_options options in
  let instances := Expirable.new (touch_policy h) "5 minutes" in
  let routes := Expirable.new (touch_policy h) "5 minutes" in
  let NotFound := opt_404 options in
  let pages := opt_pages options in
  let Engine := default (default_Engine h) (opt_engine options) in
  Engine;;
  match pages with
  | None => Throw "Missing `pages` property in the options"
  | Some pages =>
      pages ← listing h pages;
      pages ← map_pages h pages;
      Ok {| instances := instances; routes := routes;
            NotFound := NotFound; pages := pages |}
  end.

(** ** The middleware *)

(** The calls the middleware makes on its collaborators.  Pages are named by
    their position in [pages]. *)
Inductive Event : Type :=
| RoutesGet (id : string)
| FilterCall (i : nat)
| RouterTest (i : nat)
| RouterExec (i : nat)
| RoutesSet (id : string)
| New (P : PageFn) (params : Params)
| OnError (l : Listener)
| InstancesSet (key : string)
| Next.

(** What a call of the middleware acts on: the two caches, the response
    object, and the calls made so far, oldest first. *)
Record World : Type := mkWorld {
  w_instances : Expirable.t Instance;
  w_routes : Expirable.t Route;
  w_res : Response;
  w_trace : list Event
}.

(** A statement of the middleware: it returns a value and leaves a world. *)
Definition Act (A : Type) : Type := World -> A * World.

#[export] Instance Act_ret : MRet Act := fun A a w => (a, w).

#[export] Instance Act_bind : MBind Act := fun A B k m w =>
  let '(a, w') := m w in k a w'.

(** The world with the calls of [t] made after those it already has. *)
Definition log (t : list Event) (w : World) : World :=
  {| w_instances := w_instances w; w_routes := w_routes w; w_res := w_res w;
     w_trace := w_trace w ++ t |}.

Definition call (e : Event) : Act unit := fun w => (tt, log [e] w).

(** [routes.get(id)] *)
Definition routes_get (now : Z) (id : string) : Act (option Route) := fun w =>
  let '(found, routes) := Expirable.get now id (w_routes w) in
  (found, log [RoutesGet id]
            {| w_instances := w_instances w; w_routes := routes; w_res := w_res w;
               w_trace := w_trace w |}).

(** [routes.set(id, cached)] *)
Definition routes_set (now : Z) (id : string) (cached : Route) : Act unit := fun w =>
  (tt, log [RoutesSet id]
         {| w_instances := w_instances w;
            w_routes := Expirable.set now id cached (w_routes w);
            w_res := w_res w; w_trace := w_trace w |}).

(** [instances.set(key, page)] *)
Definition instances_set (now : Z) (key : string) (page : Instance) : Act unit := fun w =>
  (tt, log [InstancesSet key]
         {| w_instances := Expirable.set now key page (w_instances w);
            w_routes := w_routes w; w_res := w_res w; w_trace := w_trace w |}).

(** [page.router.test(uri)] and [page.router.exec(uri)], for the page at
    position [i]. *)
Definition router_test (i : nat) (page : Page) (uri : Url.t) : Act bool :=
  call (RouterTest i);; mret (test (router page) uri).

Definition router_exec (i : nat) (page : Page) (uri : Url.t) : Act Params :=
  call (RouterExec i);; mret (exec (router page) uri).

(** [new P({ req: req, res: res, params: params })] *)
Definition new_Page (P : PageFn) (req : Request) (params : Params) : Act Instance :=
  call (New P params);;
  mret {| inst_of := P; inst_req := req; inst_params := params; on_error := [] |}.

(** [page.on('error', listener)] *)
Definition page_on_error (page : Instance) (l : Listener) : Act Instance :=
  call (OnError l);;
  mret {| inst_of := inst_of page; inst_req := inst_req page;
          inst_params := inst_params page; on_error := on_error page ++ [l] |}.

(** [next()] *)
Definition next : Act unit := call Next.

(** [Array.prototype.filter], from position [i] on: the callback runs on
    every element, in order; the elements it accepts are kept, here with
    their positions. *)
Fixpoint array_filter (f : nat -> Page -> Act bool) (i : nat) (ps : list Page)
  : Act (list (nat * Page)) :=
  match ps with
  | [] => mret []
  | page :: ps' =>
      keep ← f i page;
      kept ← array_filter f (S i) ps';
      mret (if keep : bool then (i, page) :: kept else kept)
  end.

(** [res.statusCode = code]: the status the response will go out with. *)
Definition set_statusCode (code : Z) (res : Response) : Response :=
  {| statusCode := code; finished := finished res; sent := sent res |}.

(** Modelled from the spec: [res.end(body)] on the host's response.  While
    the response is not finished it goes out, with the status code in force
    at that moment and [body], and is finished from then on; on a finished
    response the call writes nothing. *)
Definition res_end (body : string) (res : Response) : Response :=
  if finished res then res
  else {| statusCode := statusCode res; finished := true;
          sent := sent res ++ [(statusCode res, body)] |}.


(** [function fourohfour(req, res)]: the response it leaves and the page it
    assigns, if any. *)
Definition fourohfour (NotFound : option PageFn) (req : Request) (res : Response)
  : Response * option Instance :=
  let res := set_statusCode 404 res in
  match NotFound with
  | Some nf =>
      (res, Some {| inst_of := nf; inst_req := req; inst_params := [];
                    on_error := [Fivehundered req] |})
  | None => (res_end "404, Not found" res, None)
  end.

(** The route key [req.method +'@'+ uri.pathname]. *)
Definition route_id (req : Request) : string :=
  method req +:+ "@" +:+ Js.nullable_to_string (Url.pathname (Url.parse (url req))).

(** The registry key [session +':'+ id]. *)
Definition instance_key (req : Request) : string :=
  Js.session_to_string (sessionID req) +:+ ":" +:+ route_id req.

(** [function filter(page)]: [&&] leaves [router.test] out when the methods
    differ. *)
Definition filter (req : Request) (uri : Url.t) (i : nat) (page : Page) : Act bool :=
  call (FilterCall i);;
  if String.eqb (Js.toLowerCase (fn_method (ctor page))) (Js.toLowerCase (method req))
  then router_test i page uri
  else mret false.

(** The statements of [function middlware(req, res, next)], called at time
    [now] in a closure over [pages]; the value is the local [page]. *)
Definition middlware_body (pages : list Page) (now : Z) (req : Request)
  : Act (option Instance) :=
  let uri := Url.parse (url req) in
  let id := route_id req in
  let session := Js.session_to_string (sessionID req) in
  cached ← routes_get now id;
  match cached with
  | Some cached =>
      page ← new_Page (ctor (route_Page cached)) req (route_params cached);
      page ← page_on_error page (Fivehundered req);
      instances_set now (session +:+ ":" +:+ id) page;;
      mret (Some page)
  | None =>
      cached ← array_filter (filter req uri) 0 pages;
      match cached with
      | [] => next;; mret None
      | (i, P) :: _ =>
          params ← router_exec i P uri;
          let cached := {| route_Page := P; route_params := params |} in
          routes_set now id cached;;
          page ← new_Page (ctor (route_Page cached)) req (route_params cached);
          page ← page_on_error page (Fivehundered req);
          instances_set now (session +:+ ":" +:+ id) page;;
          mret (Some page)
      end
  end.

(** The result of one call of the middleware: the closure after it, the
    response after it, the calls made, and the page it created. *)
Record Outcome : Type := mkOutcome {
  after : Attached;
  response : Response;
  trace : list Event;
  page : option Instance
}.

Definition with_caches (a : Attached) (i : Expirable.t Instance) (r : Expirable.t Route)
  : Attached :=
  {| instances := i; routes := r; NotFound := NotFound a; pages := pages a |}.

(** The middleware [attach] returned, called at time [now] on [req] and
    [res]. *)
Definition middlware (a : Attached) (now : Z) (req : Request) (res : Response) : Outcome :=
  let '(page, w) :=
    middlware_body (pages a) now req
      {| w_instances := instances a; w_routes := routes a; w_res := res; w_trace := [] |} in
  {| after := with_caches a (w_instances w) (w_routes w);
     response := w_res w;
     trace := w_trace w;
     page := page |}.



(** ** What the scan keeps and calls, as a function *)

(** The callback of [pages.filter], as a test on the page. *)
Definition matches (req : Request) (uri : Url.t) (page : Page) : bool :=
  (String.eqb (Js.toLowerCase (fn_method (ctor page))) (Js.toLowerCase (method req))
   && test (router page) uri)%bool.

(** What [pages.filter(filter)] returns and the calls it makes, from
    position [i] on ([array_filter_run] below). *)
Fixpoint filter_pages (req : Request) (uri : Url.t) (i : nat) (ps : list Page)
  : list (nat * Page) * list Event :=
  match ps with
  | [] => ([], [])
  | page :: ps' =>
      let '(kept, calls) := filter_pages req uri (S i) ps' in
      if String.eqb (Js.toLowerCase (fn_method (ctor page))) (Js.toLowerCase (method req))
      then if test (router page) uri
           then ((i, page) :: kept, FilterCall i :: RouterTest i :: calls)
           else (kept, FilterCall i :: RouterTest i :: calls)
      else (kept, FilterCall i :: calls)
  end.

(** The page as the middleware leaves it: created, with the handler on its
    ['error'] event. *)
Definition instantiate (P : PageFn) (req : Request) (params : Params) : Instance :=
  {| inst_of := P; inst_req := req; inst_params := params;
     on_error := [Fivehundered req] |}.

(** ** Predicates the statements use *)

(** [occurs c s]: the character [c] is one of the characters of [s]. *)
Fixpoint occurs (c : ascii) (s : string) : bool :=
  match s with
  | EmptyString => false
  | String a s' => (Ascii.eqb a c || occurs c s')%bool
  end.

(** A URL made of a path and, when [query] is [Some q], [?] and [q]. *)
Definition with_query (path : string) (query : option string) : string :=
  match query with
  | None => path
  | Some q => path +:+ "?" +:+ q
  end.

Definition is_test (i : nat) (e : Event) : bool :=
  match e with
  | RouterTest j => (j =? i)%nat
  | _ => false
  end.

Definition is_exec (i : nat) (e : Event) : bool :=
  match e with
  | RouterExec j => (j =? i)%nat
  | _ => false
  end.

Definition is_next (e : Event) : bool :=
  match e with
  | Next => true
  | _ => false
  end.

(** An event of the scan: the filter callback, [router.test] or
    [router.exec]. *)
Definition is_scan (e : Event) : bool :=
  match e with
  | FilterCall _ | RouterTest _ | RouterExec _ => true
  | _ => false
  end.

(** How many events of a trace satisfy [f]. *)
Definition count (f : Event -> bool) (t : list Event) : nat :=
  length (List.filter f t).

(** The value a lookup at time [now] returns. *)
Definition lookup_at {V : Type} (now : Z) (key : string) (m : Expirable.t V) : option V :=
  fst (Expirable.get now key m).

(** The same closure with another ['404'] option. *)
Definition with_NotFound (nf : option PageFn) (a : Attached) : Attached :=
  {| instances := instances a; routes := routes a; NotFound := nf; pages := pages a |}.


(** One call of the middleware: when it happens, the request and the
    response object it is given. *)
Record Call : Type := mkCall {
  call_time : Z;
  call_req : Request;
  call_res : Response
}.

Definition serve (a : Attached) (c : Call) : Attached :=
  after (middlware a (call_time c) (call_req c) (call_res c)).

(** The closure after the calls of [cs], oldest first. *)
Definition serve_all (a : Attached) (cs : list Call) : Attached :=
  fold_left serve cs a.

(** What it means for a map to expire its entries after [ttl] milliseconds
    without a touch: that is its window; an entry idle for [ttl] or longer
    is absent on lookup; a value a lookup returns has been idle for less;
    and a key is back after a fresh [set], until it has been idle for [ttl]
    again. *)
Definition expires_after {V : Type} (ttl : Z) (m : Expirable.t V) : Prop :=
  Expirable.expire m = ttl /\
  (forall now key e,
      Expirable.cache m !! key = Some e -> ttl <= now - Expirable.last e ->
      lookup_at now key m = None) /\
  (forall now key v,
      lookup_at now key m = Some v ->
      exists e, Expirable.cache m !! key = Some e /\ Expirable.value e = v /\
                now - Expirable.last e < ttl) /\
  (forall now key v t later,
      later - t < ttl ->
      lookup_at later key (Expirable.set t key v (snd (Expirable.get now key m))) = Some v).

(** The same request with another [sessionID]. *)
Definition with_session (s : Js.Session) (req : Request) : Request :=
  {| method := method req; url := url req; sessionID := s |}.

(** The same request with another [method]. *)
Definition with_method (m : string) (req : Request) : Request :=
  {| method := m; url := url req; sessionID := sessionID req |}.

(** The configurations [attach] is to reject: no [pages] property; or, among
    the pages supplied (listed from the directory when [pages] is not an
    array), one that, once loaded, is not a function, one that is an
    initialised [Page], or a function that is itself [instanceof Page]. *)
Definition bad_page (h : Host) (v : Value) : Prop :=
  (forall f, load h v <> Ok (VFunction f)) \/
  (exists path, v = VPageInstance path) \/
  (exists f p, load h v = Ok (VFunction f) /\ fn_initialized f = Some p).

Definition misconfigured (h : Host) (options : option Options) : Prop :=
  opt_pages (default no_options options) = None \/
  exists value items v,
    opt_pages (default no_options options) = Some value /\
    listing h value = Ok items /\
    In v items /\
    bad_page h v.

(** The pages [attach] keeps, against the values supplied: each value loads
    to a constructor function that is not an initialised [Page], and the
    page kept is that function. *)
Definition validated (h : Host) (items : list Value) (ps : list Page) : Prop :=
  Forall2 (fun v P => load h v = Ok (VFunction (ctor P)) /\ fn_initialized (ctor P) = None)
          items ps.

(** A request as the HTTP server hands it over: the method has no [@] (it is
    a token), and the URL is in origin form, starting with [/]. *)
Definition well_formed (req : Request) : Prop :=
  occurs "@" (method req) = false /\ exists rest, url req = String "/" rest.

(** A router that decides on the pathname of the URL alone. *)
Definition by_pathname (r : Router) : Prop :=
  forall u u', Url.pathname u = Url.pathname u' -> test r u = test r u'.

(** No registered page matches the request. *)
Definition no_match (a : Attached) (req : Request) : Prop :=
  forall Q, In Q (pages a) -> matches req (Url.parse (url req)) Q = false.

(** The request is forwarded: the trace is the lookup, the calls of the
    scan and one call of [next]; the response object is as it was; no page
    is created and the registry is as it was. *)
Definition forwarded (a : Attached) (req : Request) (res : Response) (o : Outcome) : Prop :=
  (exists calls, trace o = RoutesGet (route_id req) :: calls ++ [Next] /\
                 count is_next calls = 0%nat) /\
  count is_next (trace o) = 1%nat /\
  response o = res /\
  page o = None /\
  instances (after o) = instances a.

(** Every cached route key belongs to requests some registered page
    matches. *)
Definition routes_sound (a : Attached) : Prop :=
  forall key req,
    is_Some (Expirable.cache (routes a) !! key) ->
    well_formed req -> route_id req = key ->
    exists Q, In Q (pages a) /\ matches req (Url.parse (url req)) Q = true.

(** ** Further predicates: [attach] *)

(** The [Engine] constructor [attach] runs: [options.engine || exports.Engine]. *)
Definition chosen_Engine (h : Host) (options : option Options) : Result unit :=
  default (default_Engine h) (opt_engine (default no_options options)).

(** The supplied value [v] is accepted as the page [P]: it loads to the
    constructor function of [P], which is not an initialised [Page], and the
    router of [P] is the one the function brought or, when it brought none,
    the one [Routable] builds from [prototype.path]. *)
Definition accepted (h : Host) (v : Value) (P : Page) : Prop :=
  load h v = Ok (VFunction (ctor P)) /\
  fn_initialized (ctor P) = None /\
  match fn_router (ctor P) with
  | Some r => router P = r
  | None => Routable h (fn_path (ctor P)) = Ok (router P)
  end.

(** The same options with another [pages] property. *)
Definition with_pages (v : Value) (o : Options) : Options :=
  {| opt_engine := opt_engine o; opt_404 := opt_404 o; opt_pages := Some v |}.

Definition is_array (v : Value) : bool :=
  match v with
  | VArray _ => true
  | _ => false
  end.

(** ** Further predicates: what the caches hold *)

(** [P] is the first page of [ps] that matches [req]. *)
Definition first_match (ps : list Page) (req : Request) (P : Page) : Prop :=
  exists before behind,
    ps = before ++ P :: behind /\
    (forall Q, In Q before -> matches req (Url.parse (url req)) Q = false) /\
    matches req (Url.parse (url req)) P = true.

(** The route [R] was resolved for [req]: its page is the first registered
    page that matches [req] and its parameters are what the router of that
    page extracts from the URL of [req]. *)
Definition resolved_for (ps : list Page) (req : Request) (R : Route) : Prop :=
  first_match ps req (route_Page R) /\
  route_params R = exec (router (route_Page R)) (Url.parse (url req)).

(** Every entry of the route cache was resolved for a request with the
    route key it is stored under. *)
Definition routes_resolved (a : Attached) : Prop :=
  forall key e,
    Expirable.cache (routes a) !! key = Some e ->
    exists req, route_id req = key /\ resolved_for (pages a) req (Expirable.value e).

(** Every entry of the registry is stored under the key of the request its
    page was created for; the page has the one listener the middleware
    registered; and it is an instance of a registered page. *)
Definition registry_sound (a : Attached) : Prop :=
  forall key e,
    Expirable.cache (instances a) !! key = Some e ->
    key = instance_key (inst_req (Expirable.value e)) /\
    on_error (Expirable.value e) = [Fivehundered (inst_req (Expirable.value e))] /\
    exists P, In P (pages a) /\ inst_of (Expirable.value e) = ctor P.

(** ** Further predicates: traces and sequences of calls *)

Definition is_filter_call (e : Event) : bool :=
  match e with FilterCall _ => true | _ => false end.

Definition is_router_test (e : Event) : bool :=
  match e with RouterTest _ => true | _ => false end.

Definition is_router_exec (e : Event) : bool :=
  match e with RouterExec _ => true | _ => false end.

Definition is_routes_get (e : Event) : bool :=
  match e with RoutesGet _ => true | _ => false end.

Definition is_routes_set (e : Event) : bool :=
  match e with RoutesSet _ => true | _ => false end.

Definition is_new (e : Event) : bool :=
  match e with New _ _ => true | _ => false end.

Definition is_on_error (e : Event) : bool :=
  match e with OnError _ => true | _ => false end.

Definition is_instances_set (e : Event) : bool :=
  match e with InstancesSet _ => true | _ => false end.

(** The first half of the filter callback: the methods are equal once both
    are lower-cased. *)
Definition method_fits (req : Request) (page : Page) : bool :=
  String.eqb (Js.toLowerCase (fn_method (ctor page))) (Js.toLowerCase (method req)).

(** The outcomes of the calls of [cs], each made on the closure the one
    before it left. *)
Fixpoint outcomes (a : Attached) (cs : list Call) : list Outcome :=
  match cs with
  | [] => []
  | c :: cs' =>
      let o := middlware a (call_time c) (call_req c) (call_res c) in
      o :: outcomes (after o) cs'
  end.

(** Starting at time [t], each call of [cs] comes less than [ttl] after the
    one before it. *)
Fixpoint spaced (ttl : Z) (t : Z) (cs : list Call) : Prop :=
  match cs with
  | [] => True
  | c :: cs' => call_time c - t < ttl /\ spaced ttl (call_time c) cs'
  end.

(** ** Sample pages *)

Module Sample.

(** A router for one literal path. *)
Definition literal_router (p : string) : Router :=
  {| test := fun u => bool_decide (Url.pathname u = Some p);
     exec := fun u => [("path", Js.nullable_to_string (Url.pathname u))] |}.

Definition host : Host :=
  {| require := fun _ => Throw "Cannot find module";
     readdirSync := fun _ => Throw "ENOENT";
     resolve := fun _ file => file;
     Routable := fun p => Ok (literal_router p);
     default_Engine := Ok ();
     touch_policy := true |}.

Definition home : PageFn :=
  {| fn_name := "Home"; fn_method := "GET"; fn_path := "/";
     fn_router := None; fn_initialized := None |}.

Definition landing : PageFn :=
  {| fn_name := "Landing"; fn_method := "get"; fn_path := "/";
     fn_router := None; fn_initialized := None |}.

Definition missing : PageFn :=
  {| fn_name := "Missing"; fn_method := "GET"; fn_path := "/404";
     fn_router := None; fn_initialized := None |}.

Definition options : Options :=
  {| opt_engine := None; opt_404 := Some missing;
     opt_pages := Some (VArray [VFunction home; VFunction landing]) |}.

(** What [attach host (Some options)] returns. *)
Definition site : Attached :=
  {| instances := Expirable.new true "5 minutes";
     routes := Expirable.new true "5 minutes";
     NotFound := Some missing;
     pages := [ {| ctor := home; router := literal_router "/" |};
                {| ctor := landing; router := literal_router "/" |} ] |}.

Definition get_home : Request :=
  {| method := "GET"; url := "/?lang=en"; sessionID := Js.SUndefined |}.

Definition get_home_again : Request :=
  {| method := "GET"; url := "/?lang=fr"; sessionID := Js.SString "" |}.

Definition get_home_lower : Request :=
  {| method := "get"; url := "/?lang=en"; sessionID := Js.SUndefined |}.

Definition get_other : Request :=
  {| method := "GET"; url := "/nowhere"; sessionID := Js.SUndefined |}.

End Sample.

(** ** Sample pages loaded from a directory *)

Module Disk.

Definition join (dir : Value) (file : string) : string :=
  match dir with
  | VString d => d +:+ "/" +:+ file
  | _ => file
  end.

(** A host whose directory [/srv/pages] holds two page modules and one file
    that exports an object. *)
Definition host : Host :=
  {| require := fun file =>
       if bool_decide (file = "/srv/pages/home.js") then Ok (VFunction Sample.home)
       else if bool_decide (file = "/srv/pages/landing.js") then Ok (VFunction Sample.landing)
       else if bool_decide (file = "/srv/pages/README.json") then Ok VObject
       else Throw "Cannot find module";
     readdirSync := fun dir =>
       match dir with
       | VString "/srv/pages" => Ok ["home.js"; "landing.js"]
       | VString "/srv/mixed" => Ok ["home.js"]
       | _ => Throw "ENOENT"
       end;
     resolve := join;
     Routable := fun p => Ok (Sample.literal_router p);
     default_Engine := Ok ();
     touch_policy := true |}.

Definition options : Options :=
  {| opt_engine := None; opt_404 := None; opt_pages := Some (VString "/srv/pages") |}.

End Disk.

(** ** Sample visitors *)

Module Visitors.

Definition alice : Request :=
  {| method := "GET"; url := "/"; sessionID := Js.SString "alice" |}.

Definition bob : Request :=
  {| method := "GET"; url := "/?from=mail"; sessionID := Js.SString "bob" |}.

Definition alice_again : Request :=
  {| method := "GET"; url := "/?tab=2"; sessionID := Js.SString "alice" |}.

Definition anonymous : Request :=
  {| method := "GET"; url := "/"; sessionID := Js.SUndefined |}.

Definition named_undefined : Request :=
  {| method := "GET"; url := "/"; sessionID := Js.SString "undefined" |}.

Definition home_page : Page :=
  {| ctor := Sample.home; router := Sample.literal_router "/" |}.

Definition landing_page : Page :=
  {| ctor := Sample.landing; router := Sample.literal_router "/" |}.

End Visitors.

(** ** A sample page whose router reads the query *)

Module Campaign.

(** A router of the page's own: it accepts [/a] with the query [?x=1]
    only. *)
Definition by_query : Router :=
  {| test := fun u => bool_decide (Url.pathname u = Some "/a" /\ Url.search u = Some "?x=1");
     exec := fun u => [] |}.

Definition promo : PageFn :=
  {| fn_name := "Promo"; fn_method := "GET"; fn_path := "/a";
     fn_router := Some by_query; fn_initialized := None |}.

Definition options : Options :=
  {| opt_engine := None; opt_404 := None; opt_pages := Some (VArray [VFunction promo]) |}.

(** What [attach Sample.host (Some options)] returns. *)
Definition site : Attached :=
  {| instances := Expirable.new true "5 minutes";
     routes := Expirable.new true "5 minutes";
     NotFound := None;
     pages := [ {| ctor := promo; router := by_query |} ] |}.

Definition with_x1 : Request :=
  {| method := "GET"; url := "/a?x=1"; sessionID := Js.SUndefined |}.

Definition with_x2 : Request :=
  {| method := "GET"; url := "/a?x=2"; sessionID := Js.SUndefined |}.

End Campaign.

(** ** The model on the sample pages *)

Example attach_sample : attach Sample.host (Some Sample.options) = Ok Sample.site.
Proof. reflexivity. Qed.

Example attach_without_options :
  attach Sample.host None = Throw "Missing `pages` property in the options".
Proof. reflexivity. Qed.

Example attach_page_instance :
  attach Sample.host
    (Some {| opt_engine := None; opt_404 := None;
             opt_pages := Some (VArray [VFunction Sample.home; VPageInstance "/about"]) |})
  = Throw "Invalid page type: object".
Proof. reflexivity. Qed.

Example attach_directory :
  attach Sample.host
    (Some {| opt_engine := None; opt_404 := None; opt_pages := Some (VString "./pages") |})
  = Throw "ENOENT".
Proof. reflexivity. Qed.

Example first_request_scans :
  trace (middlware Sample.site 1000 Sample.get_home fresh_response)
  = [RoutesGet "GET@/"; FilterCall 0; RouterTest 0; FilterCall 1; RouterTest 1;
     RouterExec 0; RoutesSet "GET@/"; New Sample.home [("path", "/")];
     OnError (Fivehundered Sample.get_home); InstancesSet "undefined:GET@/"].
Proof. reflexivity. Qed.

Example second_request_hits :
  trace (middlware (after (middlware Sample.site 1000 Sample.get_home fresh_response))
           2000 Sample.get_home_again fresh_response)
  = [RoutesGet "GET@/"; New Sample.home [("path", "/")];
     OnError (Fivehundered Sample.get_home_again); InstancesSet ":GET@/"].
Proof. reflexivity. Qed.

Example late_request_scans_again :
  trace (middlware (after (middlware Sample.site 1000 Sample.get_home fresh_response))
           301000 Sample.get_home_again fresh_response)
  = [RoutesGet "GET@/"; FilterCall 0; RouterTest 0; FilterCall 1; RouterTest 1;
     RouterExec 0; RoutesSet "GET@/"; New Sample.home [("path", "/")];
     OnError (Fivehundered Sample.get_home_again); InstancesSet ":GET@/"].
Proof. reflexivity. Qed.

Example unknown_path_forwards :
  trace (middlware Sample.site 1000 Sample.get_other fresh_response)
  = [RoutesGet "GET@/nowhere"; FilterCall 0; RouterTest 0; FilterCall 1; RouterTest 1; Next].
Proof. reflexivity. Qed.

Example parse_sample :
  Url.parse "/user/42?tab=posts#top"
  = {| Url.href := "/user/42?tab=posts#top"; Url.pathname := Some "/user/42";
       Url.search := Some "?tab=posts"; Url.hash := Some "#top" |}.
Proof. reflexivity. Qed.

(** ** Strings *)

Lemma append_nil (t : string) : "" +:+ t = t.
Proof. reflexivity. Qed.

Lemma append_cons (c : ascii) (s t : string) : String c s +:+ t = String c (s +:+ t).
Proof. reflexivity. Qed.

Lemma append_empty_r (s : string) : s +:+ "" = s.
Proof. induction s as [|c s IH]; [done | by rewrite append_cons, IH]. Qed.

Lemma append_assoc (s t u : string) : (s +:+ t) +:+ u = s +:+ (t +:+ u).
Proof. induction s as [|c s IH]; [done | by rewrite !append_cons, IH]. Qed.

Lemma length_append (s t : string) :
  String.length (s +:+ t) = (String.length s + String.length t)%nat.
Proof. induction s as [|c s IH]; [done | rewrite append_cons; simpl; by rewrite IH]. Qed.

Lemma append_inj_l (s t u : string) : s +:+ t = s +:+ u -> t = u.
Proof.
  induction s as [|c s IH]; [done |]. rewrite !append_cons. intros [= H]. auto.
Qed.

Lemma append_inj_r (s t u : string) : s +:+ u = t +:+ u -> s = t.
Proof.
  revert t. induction s as [|c s IH]; intros [|d t]; rewrite ?append_cons, ?append_nil; intros H.
  - done.
  - apply (f_equal String.length) in H. simpl in H. rewrite length_append in H. lia.
  - apply (f_equal String.length) in H. simpl in H. rewrite length_append in H. lia.
  - injection H as -> H. f_equal. by apply IH.
Qed.

(** ** [url.parse] *)

Lemma break_at_app (c : ascii) (s t : string) :
  occurs c s = false ->
  Url.break_at c (s +:+ t) = (s +:+ fst (Url.break_at c t), snd (Url.break_at c t)).
Proof.
  induction s as [|a s IH]; intros H.
  - rewrite !append_nil. by destruct (Url.break_at c t).
  - simpl in H. apply orb_false_iff in H as [Ha Hs].
    rewrite !append_cons. simpl. by rewrite Ha, (IH Hs).
Qed.

Lemma break_at_absent (c : ascii) (s : string) :
  occurs c s = false -> Url.break_at c s = (s, "").
Proof.
  induction s as [|a s IH]; simpl; intros H; [done |].
  apply orb_false_iff in H as [Ha Hs]. by rewrite Ha, (IH Hs).
Qed.

Lemma break_at_head (c : ascii) (s : string) :
  Url.break_at c (String c s) = ("", String c s).
Proof. simpl. by rewrite Ascii.eqb_refl. Qed.

(** The pathname of [path?query] and of [path] alone is [path], when [path]
    has neither [?] nor [#]. *)
Lemma pathname_with_query (path : string) (query : option string) :
  occurs "?" path = false -> occurs "#" path = false ->
  Url.pathname (Url.parse (with_query path query)) = Url.non_empty path.
Proof.
  intros Hq Hh. unfold Url.parse, with_query. destruct query as [q|].
  - rewrite (break_at_app "#" path _ Hh).
    change ("?" +:+ q) with (String "?" q).
    change (Url.break_at "#" (String "?" q))
      with (let '(p, r) := Url.break_at "#" q in (String "?" p, r)).
    destruct (Url.break_at "#" q) as [q' h] eqn:E. cbn [fst snd].
    rewrite (break_at_app "?" path _ Hq), break_at_head. cbn [fst snd Url.pathname].
    by rewrite append_empty_r.
  - rewrite (break_at_absent "#" path Hh), (break_at_absent "?" path Hq). done.
Qed.

(** ** The expiring map *)

Section ExpirableFacts.
Context {V : Type}.
Implicit Types (m : Expirable.t V) (key : string) (now : Z).

Lemma lookup_at_absent m now key :
  Expirable.cache m !! key = None -> lookup_at now key m = None.
Proof. unfold lookup_at, Expirable.get. by intros ->. Qed.

Lemma lookup_at_expired m now key e :
  Expirable.cache m !! key = Some e ->
  Expirable.expire m <= now - Expirable.last e ->
  lookup_at now key m = None.
Proof.
  unfold lookup_at, Expirable.get. intros -> H.
  apply Z.leb_le in H. by rewrite H.
Qed.

Lemma lookup_at_live m now key e :
  Expirable.cache m !! key = Some e ->
  now - Expirable.last e < Expirable.expire m ->
  lookup_at now key m = Some (Expirable.value e).
Proof.
  unfold lookup_at, Expirable.get. intros -> H.
  apply Z.leb_gt in H. rewrite H. by destruct (Expirable.touch m).
Qed.

Lemma lookup_at_Some m now key v :
  lookup_at now key m = Some v ->
  exists e, Expirable.cache m !! key = Some e /\ Expirable.value e = v /\
            now - Expirable.last e < Expirable.expire m.
Proof.
  unfold lookup_at, Expirable.get.
  destruct (Expirable.cache m !! key) as [e|]; [| done].
  destruct (Expirable.expire m <=? now - Expirable.last e) eqn:E; [done |].
  apply Z.leb_gt in E. intros H. exists e.
  destruct (Expirable.touch m); simpl in H; injection H as <-; auto.
Qed.

Lemma expire_get m now key :
  Expirable.expire (snd (Expirable.get now key m)) = Expirable.expire m.
Proof.
  unfold Expirable.get. destruct (Expirable.cache m !! key) as [e|]; [| done].
  destruct (_ <=? _); [done |]. by destruct (Expirable.touch m).
Qed.

Lemma expire_set m now key v :
  Expirable.expire (Expirable.set now key v m) = Expirable.expire m.
Proof. done. Qed.

Lemma cache_set_eq m now key v :
  Expirable.cache (Expirable.set now key v m) !! key = Some (Expirable.mkEntry v now).
Proof. apply lookup_insert_eq. Qed.

Lemma cache_set_ne m now key key' v :
  key <> key' ->
  Expirable.cache (Expirable.set now key v m) !! key' = Expirable.cache m !! key'.
Proof. intros H. simpl. by rewrite lookup_insert_ne. Qed.

Lemma cache_get_ne m now key key' :
  key <> key' ->
  Expirable.cache (snd (Expirable.get now key m)) !! key' = Expirable.cache m !! key'.
Proof.
  intros H. unfold Expirable.get.
  destruct (Expirable.cache m !! key) as [e|]; [| done].
  destruct (_ <=? _); simpl; [by rewrite lookup_delete_ne |].
  destruct (Expirable.touch m); simpl; [by rewrite lookup_insert_ne | done].
Qed.

(** After a lookup that found nothing the key has no entry. *)
Lemma cache_get_miss m now key :
  lookup_at now key m = None ->
  Expirable.cache (snd (Expirable.get now key m)) !! key = None.
Proof.
  unfold lookup_at, Expirable.get.
  destruct (Expirable.cache m !! key) as [e|] eqn:E; [| done].
  destruct (_ <=? _); simpl; [intros _; by rewrite lookup_delete_eq |].
  by destruct (Expirable.touch m).
Qed.

(** A lookup leaves no key behind that was not there. *)
Lemma cache_get_is_Some m now key key' :
  is_Some (Expirable.cache (snd (Expirable.get now key m)) !! key') ->
  is_Some (Expirable.cache m !! key').
Proof.
  destruct (decide (key = key')) as [<-|Hne]; [| by rewrite cache_get_ne].
  intros H. destruct (Expirable.cache m !! key) as [e|] eqn:E; [by exists e |].
  unfold Expirable.get in H. by rewrite E in H; simpl in H; rewrite E in H.
Qed.

(** A lookup reads the window and the entry of its key, nothing else. *)
Lemma lookup_at_ext m (m' : Expirable.t V) now key :
  Expirable.expire m = Expirable.expire m' ->
  Expirable.cache m !! key = Expirable.cache m' !! key ->
  lookup_at now key m = lookup_at now key m'.
Proof.
  unfold lookup_at, Expirable.get. intros -> ->.
  destruct (Expirable.cache m' !! key) as [e|]; [| done].
  destruct (_ <=? _); [done |].
  by destruct (Expirable.touch m), (Expirable.touch m').
Qed.

Lemma lookup_at_set m now later key v :
  later - now < Expirable.expire m ->
  lookup_at later key (Expirable.set now key v m) = Some v.
Proof.
  intros H.
  rewrite (lookup_at_live _ later key (Expirable.mkEntry v now)); [done | | done].
  apply cache_set_eq.
Qed.

Lemma lookup_at_set_ne m now later key key' v :
  key <> key' ->
  lookup_at later key' (Expirable.set now key v m) = lookup_at later key' m.
Proof. intros H. apply lookup_at_ext; [done | by apply cache_set_ne]. Qed.

Lemma lookup_at_get_ne m now later key key' :
  key <> key' ->
  lookup_at later key' (snd (Expirable.get now key m)) = lookup_at later key' m.
Proof. intros H. apply lookup_at_ext; [apply expire_get | by apply cache_get_ne]. Qed.

Lemma expires_after_window m : expires_after (Expirable.expire m) m.
Proof.
  split; [done |]. split; [| split].
  - intros now key e. apply lookup_at_expired.
  - intros now key v. apply lookup_at_Some.
  - intros now key v t later H. apply lookup_at_set. by rewrite expire_get.
Qed.

End ExpirableFacts.

(** ** Running the statements of the middleware *)

Lemma log_nil w : log [] w = w.
Proof. destruct w. unfold log. simpl. by rewrite app_nil_r. Qed.

Lemma log_log t u w : log u (log t w) = log (t ++ u) w.
Proof. unfold log. simpl. by rewrite app_assoc. Qed.

Lemma bind_run {A B : Type} (m : Act A) (k : A -> Act B) (w : World) :
  (m ≫= k) w = let '(a, w') := m w in k a w'.
Proof. reflexivity. Qed.

Lemma filter_run req uri i P w :
  filter req uri i P w
  = (matches req uri P,
     log (if String.eqb (Js.toLowerCase (fn_method (ctor P))) (Js.toLowerCase (method req))
          then [FilterCall i; RouterTest i] else [FilterCall i]) w).
Proof.
  unfold filter, matches, router_test, call. rewrite bind_run.
  destruct (String.eqb _ _); simpl; [| done].
  rewrite bind_run. by rewrite log_log.
Qed.

(** [pages.filter(filter)] keeps and calls what [filter_pages] says. *)
Lemma array_filter_run req uri i ps w :
  array_filter (filter req uri) i ps w
  = (fst (filter_pages req uri i ps), log (snd (filter_pages req uri i ps)) w).
Proof.
  revert i w. induction ps as [|P ps IH]; intros i w.
  - simpl. by rewrite log_nil.
  - cbn [array_filter]. rewrite bind_run, filter_run, bind_run, IH.
    cbn [filter_pages]. destruct (filter_pages req uri (S i) ps) as [kept calls].
    unfold matches. cbn [fst snd].
    destruct (String.eqb _ _); [destruct (test _ _) |]; simpl; by rewrite log_log.
Qed.

(** The three statements both branches end with. *)
Lemma instantiate_run P req params now key w :
  (page ← new_Page P req params;
   page ← page_on_error page (Fivehundered req);
   instances_set now key page;;
   mret (Some page)) w
  = (Some (instantiate P req params),
     log [New P params; OnError (Fivehundered req); InstancesSet key]
       {| w_instances := Expirable.set now key (instantiate P req params) (w_instances w);
          w_routes := w_routes w; w_res := w_res w; w_trace := w_trace w |}).
Proof.
  cbv [mbind Act_bind mret Act_ret new_Page page_on_error instances_set call log
       instantiate].
  simpl. by rewrite <- !app_assoc.
Qed.

(** ** The three paths of the middleware *)

Lemma middlware_hit a now req res R :
  lookup_at now (route_id req) (routes a) = Some R ->
  middlware a now req res =
  let page := instantiate (ctor (route_Page R)) req (route_params R) in
  {| after := with_caches a
                (Expirable.set now (instance_key req) page (instances a))
                (snd (Expirable.get now (route_id req) (routes a)));
     response := res;
     trace := [RoutesGet (route_id req);
               New (ctor (route_Page R)) (route_params R);
               OnError (Fivehundered req);
               InstancesSet (instance_key req)];
     page := Some page |}.
Proof.
  unfold lookup_at, middlware, middlware_body, routes_get. rewrite bind_run.
  cbn [w_routes w_instances w_res w_trace].
  destruct (Expirable.get now (route_id req) (routes a)) as [cached routes1].
  simpl fst. intros ->. by rewrite instantiate_run.
Qed.

Lemma middlware_forward a now req res :
  lookup_at now (route_id req) (routes a) = None ->
  fst (filter_pages req (Url.parse (url req)) 0 (pages a)) = [] ->
  middlware a now req res =
  {| after := with_caches a (instances a)
                (snd (Expirable.get now (route_id req) (routes a)));
     response := res;
     trace := RoutesGet (route_id req)
              :: snd (filter_pages req (Url.parse (url req)) 0 (pages a)) ++ [Next];
     page := None |}.
Proof.
  unfold lookup_at, middlware, middlware_body, routes_get. rewrite bind_run.
  cbn [w_routes w_instances w_res w_trace].
  destruct (Expirable.get now (route_id req) (routes a)) as [cached routes1].
  simpl fst. intros -> F. rewrite bind_run, array_filter_run, F.
  unfold next, call. by rewrite bind_run.
Qed.

Lemma middlware_match a now req res i P kept :
  lookup_at now (route_id req) (routes a) = None ->
  fst (filter_pages req (Url.parse (url req)) 0 (pages a)) = (i, P) :: kept ->
  middlware a now req res =
  let uri := Url.parse (url req) in
  let params := exec (router P) uri in
  let page := instantiate (ctor P) req params in
  {| after := with_caches a
                (Expirable.set now (instance_key req) page (instances a))
                (Expirable.set now (route_id req)
                   {| route_Page := P; route_params := params |}
                   (snd (Expirable.get now (route_id req) (routes a))));
     response := res;
     trace := RoutesGet (route_id req)
              :: snd (filter_pages req uri 0 (pages a)) ++
                 [RouterExec i; RoutesSet (route_id req); New (ctor P) params;
                  OnError (Fivehundered req); InstancesSet (instance_key req)];
     page := Some page |}.
Proof.
  unfold lookup_at, middlware, middlware_body, routes_get. rewrite bind_run.
  cbn [w_routes w_instances w_res w_trace].
  destruct (Expirable.get now (route_id req) (routes a)) as [cached routes1].
  simpl fst. intros -> F. rewrite bind_run, array_filter_run, F.
  unfold router_exec, routes_set, call. rewrite !bind_run.
  cbn [mret Act_ret route_Page route_params]. rewrite bind_run, instantiate_run.
  unfold log. simpl. by rewrite <- !app_assoc.
Qed.

(** The three paths are all there is. *)
Lemma middlware_cases (a : Attached) (now : Z) (req : Request) :
  (exists R, lookup_at now (route_id req) (routes a) = Some R) \/
  (lookup_at now (route_id req) (routes a) = None /\
   fst (filter_pages req (Url.parse (url req)) 0 (pages a)) = []) \/
  (lookup_at now (route_id req) (routes a) = None /\
   exists i P kept,
     fst (filter_pages req (Url.parse (url req)) 0 (pages a)) = (i, P) :: kept).
Proof.
  destruct (lookup_at now (route_id req) (routes a)) as [R|]; [eauto |].
  destruct (fst (filter_pages req (Url.parse (url req)) 0 (pages a)))
    as [|[i P] kept]; [auto | eauto 10].
Qed.

(** The response object is returned as it came, on every path. *)
Lemma response_middlware a now req res : response (middlware a now req res) = res.
Proof.
  destruct (middlware_cases a now req) as [[R E] | [[E F] | [E (i & P & kept & F)]]].
  - by rewrite (middlware_hit _ _ _ _ _ E).
  - by rewrite (middlware_forward _ _ _ _ E F).
  - by rewrite (middlware_match _ _ _ _ _ _ _ E F).
Qed.

(** ** The caches across calls *)

Lemma expire_routes_middlware a now req res :
  Expirable.expire (routes (after (middlware a now req res))) = Expirable.expire (routes a).
Proof.
  destruct (middlware_cases a now req) as [[R E] | [[E F] | [E (i & P & kept & F)]]].
  - rewrite (middlware_hit _ _ _ _ _ E). apply expire_get.
  - rewrite (middlware_forward _ _ _ _ E F). apply expire_get.
  - rewrite (middlware_match _ _ _ _ _ _ _ E F). apply expire_get.
Qed.

Lemma expire_instances_middlware a now req res :
  Expirable.expire (instances (after (middlware a now req res))) = Expirable.expire (instances a).
Proof.
  destruct (middlware_cases a now req) as [[R E] | [[E F] | [E (i & P & kept & F)]]].
  - by rewrite (middlware_hit _ _ _ _ _ E).
  - by rewrite (middlware_forward _ _ _ _ E F).
  - by rewrite (middlware_match _ _ _ _ _ _ _ E F).
Qed.

Lemma pages_middlware a now req res :
  pages (after (middlware a now req res)) = pages a.
Proof.
  destruct (middlware_cases a now req) as [[R E] | [[E F] | [E (i & P & kept & F)]]].
  - by rewrite (middlware_hit _ _ _ _ _ E).
  - by rewrite (middlware_forward _ _ _ _ E F).
  - by rewrite (middlware_match _ _ _ _ _ _ _ E F).
Qed.

Lemma expire_serve_all a cs :
  Expirable.expire (routes (serve_all a cs)) = Expirable.expire (routes a) /\
  Expirable.expire (instances (serve_all a cs)) = Expirable.expire (instances a).
Proof.
  revert a. induction cs as [|c cs IH]; intros a; simpl; [done |].
  destruct (IH (serve a c)) as [-> ->]. unfold serve.
  by rewrite expire_routes_middlware, expire_instances_middlware.
Qed.

Lemma pages_serve_all a cs : pages (serve_all a cs) = pages a.
Proof.
  revert a. induction cs as [|c cs IH]; intros a; simpl; [done |].
  rewrite IH. apply pages_middlware.
Qed.

(** ** [attach] *)

Lemma attach_Ok h options a :
  attach h options = Ok a ->
  exists value items,
    opt_pages (default no_options options) = Some value /\
    listing h value = Ok items /\
    map_pages h items = Ok (pages a) /\
    instances a = Expirable.new (touch_policy h) "5 minutes" /\
    routes a = Expirable.new (touch_policy h) "5 minutes" /\
    NotFound a = opt_404 (default no_options options).
Proof.
  unfold attach.
  destruct (default (default_Engine h) (opt_engine (default no_options options)))
    as [[]|e]; simpl; [| done].
  destruct (opt_pages (default no_options options)) as [value|]; [| done].
  destruct (listing h value) as [items|e] eqn:El; simpl; [| done].
  destruct (map_pages h items) as [ps|e] eqn:Em; simpl; [| done].
  intros [= <-]. exists value, items. simpl. repeat split; done.
Qed.

(** ** Route keys *)

(** C5. The route key is computed from the request's method and pathname and
    from nothing else.  Two requests with the same method whose URLs are the
    same path (free of [?] and [#]) followed by any query string, or by none,
    have the same route key, [method@path], and so read the same entry of the
    route cache. *)
Theorem route_id_ignores_query
    (m path : string) (q1 q2 : option string) (s1 s2 : Js.Session) :
  occurs "?" path = false ->
  occurs "#" path = false ->
  let r1 := {| method := m; url := with_query path q1; sessionID := s1 |} in
  let r2 := {| method := m; url := with_query path q2; sessionID := s2 |} in
  (forall r r' : Request,
      method r = method r' ->
      Url.pathname (Url.parse (url r)) = Url.pathname (Url.parse (url r')) ->
      route_id r = route_id r') /\
  route_id r1 = m +:+ "@" +:+ Js.nullable_to_string (Url.non_empty path) /\
  route_id r1 = route_id r2 /\
  (forall (a : Attached) (now : Z),
      Expirable.get now (route_id r1) (routes a)
      = Expirable.get now (route_id r2) (routes a)).
Proof.
  intros Hq Hh r1 r2.
  assert (E1 : route_id r1 = m +:+ "@" +:+ Js.nullable_to_string (Url.non_empty path)).
  { unfold route_id, r1. simpl. by rewrite pathname_with_query. }
  assert (E2 : route_id r2 = m +:+ "@" +:+ Js.nullable_to_string (Url.non_empty path)).
  { unfold route_id, r2. simpl. by rewrite pathname_with_query. }
  split; [| split; [| split]].
  - intros r r' Hm Hp. unfold route_id. by rewrite Hm, Hp.
  - exact E1.
  - by rewrite E1, E2.
  - intros a now. by rewrite E1, E2.
Qed.

Lemma route_id_ignores_query_witness :
  occurs "?" "/user/42" = false /\
  occurs "#" "/user/42" = false /\
  route_id {| method := "GET"; url := "/user/42?tab=posts"; sessionID := Js.SUndefined |}
  = route_id {| method := "GET"; url := "/user/42?tab=likes#top"; sessionID := Js.SString "s1" |}.
Proof.
  split; [reflexivity |]. split; [reflexivity |].
  apply (route_id_ignores_query "GET" "/user/42" (Some "tab=posts") (Some "tab=likes#top")
           Js.SUndefined (Js.SString "s1")); reflexivity.
Defined.

(** ** Expiry *)

(** C6. The route cache and the instance registry [attach] builds are
    expiring maps with a window of five minutes (300000 ms), and keep it
    through every call of the middleware: in each, an entry last touched five
    minutes ago or earlier is absent on lookup, a value a lookup returns has
    been idle for less than five minutes, and a key is available again after
    a fresh [set]. *)
Theorem caches_expire_after_five_minutes
    (h : Host) (options : option Options) (a : Attached) (calls : list Call) :
  attach h options = Ok a ->
  expires_after (5 * 60 * 1000) (routes (serve_all a calls)) /\
  expires_after (5 * 60 * 1000) (instances (serve_all a calls)).
Proof.
  intros H. apply attach_Ok in H as (value & items & _ & _ & _ & Hi & Hr & _).
  destruct (expire_serve_all a calls) as [Er Ei].
  rewrite Hr in Er. rewrite Hi in Ei.
  change (Expirable.expire (Expirable.new (touch_policy h) "5 minutes"))
    with (5 * 60 * 1000) in Er, Ei.
  split.
  - rewrite <- Er. apply expires_after_window.
  - rewrite <- Ei. apply expires_after_window.
Qed.

Lemma caches_expire_after_five_minutes_witness :
  attach Sample.host (Some Sample.options) = Ok Sample.site /\
  expires_after 300000
    (routes (serve_all Sample.site [mkCall 1000 Sample.get_home fresh_response])).
Proof.
  split; [reflexivity |].
  apply (caches_expire_after_five_minutes Sample.host (Some Sample.options) Sample.site
           [mkCall 1000 Sample.get_home fresh_response]).
  reflexivity.
Defined.

(** ** The scan *)

(** The scan reads the request through its lower-cased method only. *)
Lemma filter_pages_method req req' uri i ps :
  Js.toLowerCase (method req) = Js.toLowerCase (method req') ->
  filter_pages req uri i ps = filter_pages req' uri i ps.
Proof.
  intros H. revert i. induction ps as [|P ps IH]; intros i; simpl; [done |].
  by rewrite (IH (S i)), H.
Qed.



(** ** Sessions *)

(** C7. A request whose session identifier is missing ([undefined]) or empty
    is dispatched like any other, with the registry key built from a fixed
    stand-in for the session: [undefined:id] for a missing identifier, [:id]
    for an empty one.  When its route is cached, and when the scan keeps a
    page, the call completes: the page is created, [instances.set] is called
    with that key, and the registry then holds the page under that key, where
    a lookup inside the window finds it. *)
Theorem dispatch_without_session
    (a : Attached) (now : Z) (req : Request) (res : Response) :
  sessionID req = Js.SUndefined \/ sessionID req = Js.SString "" ->
  let o := middlware a now req res in
  let uri := Url.parse (url req) in
  let sentinel := match sessionID req with Js.SUndefined => "undefined" | _ => "" end in
  let key := sentinel +:+ ":" +:+ route_id req in
  (forall R,
      lookup_at now (route_id req) (routes a) = Some R ->
      let p := instantiate (ctor (route_Page R)) req (route_params R) in
      page o = Some p /\
      trace o = [RoutesGet (route_id req); New (ctor (route_Page R)) (route_params R);
                 OnError (Fivehundered req); InstancesSet key] /\
      Expirable.cache (instances (after o)) !! key = Some (Expirable.mkEntry p now) /\
      forall later, later - now < Expirable.expire (instances a) ->
                    lookup_at later key (instances (after o)) = Some p) /\
  (forall i P kept,
      lookup_at now (route_id req) (routes a) = None ->
      fst (filter_pages req uri 0 (pages a)) = (i, P) :: kept ->
      let p := instantiate (ctor P) req (exec (router P) uri) in
      page o = Some p /\
      (exists front, trace o = front ++ [New (ctor P) (exec (router P) uri);
                                         OnError (Fivehundered req); InstancesSet key]) /\
      Expirable.cache (instances (after o)) !! key = Some (Expirable.mkEntry p now) /\
      forall later, later - now < Expirable.expire (instances a) ->
                    lookup_at later key (instances (after o)) = Some p).
Proof.
  intros Hs o uri sentinel key.
  assert (Hk : instance_key req = key).
  { unfold instance_key, key, sentinel. by destruct Hs as [-> | ->]. }
  split.
  - intros R E p. unfold o. rewrite (middlware_hit _ _ _ _ _ E). cbv zeta.
    cbn [page trace after with_caches instances]. rewrite Hk. fold p.
    split; [done |]. split; [done |]. split; [apply cache_set_eq |].
    intros later Hl. by apply lookup_at_set.
  - intros i P kept E F p. unfold o. rewrite (middlware_match _ _ _ _ _ _ _ E F).
    cbv zeta. cbn [page trace after with_caches instances]. rewrite Hk. fold uri p.
    split; [done |]. split; [| split; [apply cache_set_eq |]].
    + exists (RoutesGet (route_id req) :: snd (filter_pages req uri 0 (pages a))
                ++ [RouterExec i; RoutesSet (route_id req)]).
      simpl. by rewrite <- app_assoc.
    + intros later Hl. by apply lookup_at_set.
Qed.

Lemma dispatch_without_session_witness :
  (sessionID Sample.get_home = Js.SUndefined \/ sessionID Sample.get_home = Js.SString "") /\
  lookup_at 1000 (route_id Sample.get_home) (routes Sample.site) = None /\
  Expirable.cache
    (instances (after (middlware Sample.site 1000 Sample.get_home fresh_response)))
    !! "undefined:GET@/"
  = Some (Expirable.mkEntry
            (instantiate Sample.home Sample.get_home [("path", "/")]) 1000).
Proof.
  assert (H : sessionID Sample.get_home = Js.SUndefined
              \/ sessionID Sample.get_home = Js.SString "") by (left; reflexivity).
  assert (E : lookup_at 1000 (route_id Sample.get_home) (routes Sample.site) = None)
    by reflexivity.
  split; [exact H |]. split; [exact E |].
  destruct (proj2 (dispatch_without_session Sample.site 1000 Sample.get_home
                     fresh_response H)
              0%nat {| ctor := Sample.home; router := Sample.literal_router "/" |}
              [(1%nat, {| ctor := Sample.landing; router := Sample.literal_router "/" |})]
              E eq_refl) as (_ & _ & Hc & _).
  exact Hc.
Defined.

(** ** Page errors *)







(** ** The not-found handler *)

Lemma middlware_with_NotFound nf a now req res :
  middlware (with_NotFound nf a) now req res =
  let o := middlware a now req res in
  {| after := with_NotFound nf (after o); response := response o;
     trace := trace o; page := page o |}.
Proof.
  unfold middlware. cbn [routes with_NotFound pages instances].
  by destruct (middlware_body _ _ _ _) as [p w].
Qed.

Lemma statusCode_fourohfour nf req res :
  statusCode (fst (fourohfour nf req res)) = 404.
Proof.
  destruct nf as [nf|]; [done |].
  unfold fourohfour, res_end. simpl. by destruct (finished res).
Qed.

Lemma count_app f t u : count f (t ++ u) = (count f t + count f u)%nat.
Proof. unfold count. by rewrite List.filter_app, length_app. Qed.

Lemma count_scan_calls f req uri i ps :
  (forall j, f (FilterCall j) = false) ->
  (forall j, f (RouterTest j) = false) ->
  count f (snd (filter_pages req uri i ps)) = 0%nat.
Proof.
  intros H1 H2. revert i. induction ps as [|P ps IH]; intros i; simpl; [done |].
  specialize (IH (S i)). destruct (filter_pages req uri (S i) ps) as [kept calls].
  simpl in IH. unfold count in *.
  destruct (String.eqb _ _); [destruct (test _ _) |]; simpl; rewrite ?H1, ?H2; done.
Qed.

(** C9. No path of the middleware runs the not-found handler.  The handler
    always sets the status to 404, and either creates the ['404'] page or
    ends the response; the middleware returns the response object as it
    received it, creates the same page (or none) and makes the same calls
    whatever ['404'] option was given, and, when the route cache has no entry
    and the scan keeps no page, creates no page and calls [next] once. *)
Theorem middlware_never_runs_fourohfour
    (a : Attached) (now : Z) (req : Request) (res : Response) :
  let o := middlware a now req res in
  response o = res /\
  (forall nf, statusCode (fst (fourohfour nf req res)) = 404) /\
  (forall nf, statusCode res <> 404 -> response o <> fst (fourohfour nf req res)) /\
  (forall nf,
      let o' := middlware (with_NotFound nf a) now req res in
      page o' = page o /\ trace o' = trace o /\ response o' = response o /\
      instances (after o') = instances (after o) /\ routes (after o') = routes (after o)) /\
  (lookup_at now (route_id req) (routes a) = None ->
   fst (filter_pages req (Url.parse (url req)) 0 (pages a)) = [] ->
   page o = None /\ count is_next (trace o) = 1%nat /\
   exists calls, trace o = RoutesGet (route_id req) :: calls ++ [Next]).
Proof.
  intros o. unfold o. rewrite response_middlware.
  split; [done |]. split; [intros nf; apply statusCode_fourohfour |]. split; [| split].
  - intros nf Hs E. apply Hs. rewrite E. apply statusCode_fourohfour.
  - intros nf. rewrite middlware_with_NotFound. cbv zeta.
    cbn [page trace response after with_NotFound instances routes].
    rewrite response_middlware. done.
  - intros E F. rewrite (middlware_forward _ _ _ _ E F). cbn [page trace].
    split; [done |]. split; [| eauto].
    change (RoutesGet (route_id req) :: ?t ++ [Next])
      with ([RoutesGet (route_id req)] ++ t ++ [Next]).
    rewrite !count_app, count_scan_calls; done.
Qed.

Lemma middlware_never_runs_fourohfour_witness :
  lookup_at 1000 (route_id Sample.get_other) (routes Sample.site) = None /\
  fst (filter_pages Sample.get_other (Url.parse (url Sample.get_other)) 0
         (pages Sample.site)) = [] /\
  page (middlware Sample.site 1000 Sample.get_other fresh_response) = None.
Proof.
  assert (E : lookup_at 1000 (route_id Sample.get_other) (routes Sample.site) = None)
    by reflexivity.
  assert (F : fst (filter_pages Sample.get_other (Url.parse (url Sample.get_other)) 0
                     (pages Sample.site)) = []) by reflexivity.
  split; [exact E |]. split; [exact F |].
  destruct (middlware_never_runs_fourohfour Sample.site 1000 Sample.get_other fresh_response)
    as (_ & _ & _ & _ & H).
  exact (proj1 (H E F)).
Defined.

(** ** Validation of the pages at attach time *)

Lemma map_page_Ok h v P :
  map_page h v = Ok P ->
  load h v = Ok (VFunction (ctor P)) /\ fn_initialized (ctor P) = None.
Proof.
  unfold map_page. destruct (load h v) as [w|e]; simpl; [| done].
  destruct w as [| | | | | | |items|f]; try done.
  destruct (fn_initialized f) as [p|] eqn:Ei; [done |].
  destruct (fn_router f) as [r|].
  - intros [= <-]. done.
  - destruct (Routable h (fn_path f)) as [r|e]; simpl; [| done]. intros [= <-]. done.
Qed.

Lemma map_page_bad h v : bad_page h v -> throws (map_page h v).
Proof.
  unfold map_page, throws. intros [H | [[path ->] | (f & p & Hl & Hi)]].
  - destruct (load h v) as [w|e]; simpl; [| eauto].
    destruct w as [| | | | | | |items|f]; eauto. by destruct (H f).
  - simpl. eauto.
  - rewrite Hl. simpl. rewrite Hi. eauto.
Qed.

Lemma map_pages_Ok h items ps :
  map_pages h items = Ok ps -> validated h items ps.
Proof.
  revert ps. induction items as [|v items IH]; intros ps; simpl.
  - intros [= <-]. constructor.
  - destruct (map_page h v) as [P|e] eqn:E; simpl; [| done].
    destruct (map_pages h items) as [ps'|e]; simpl; [| done].
    intros [= <-]. constructor; [by apply map_page_Ok | by apply IH].
Qed.

Lemma map_pages_throws h items v :
  In v items -> throws (map_page h v) -> throws (map_pages h items).
Proof.
  unfold throws. induction items as [|w items IH]; simpl; [done |].
  intros [-> | Hin] Hv.
  - destruct Hv as [e ->]. simpl. eauto.
  - destruct (map_page h w) as [P|e]; simpl; [| eauto].
    destruct (IH Hin Hv) as [e ->]. simpl. eauto.
Qed.

Lemma attach_misconfigured h options :
  misconfigured h options -> throws (attach h options).
Proof.
  unfold attach, throws.
  destruct (default (default_Engine h) (opt_engine (default no_options options)))
    as [[]|e]; simpl; [| eauto].
  intros [-> | (value & items & v & -> & -> & Hin & Hbad)]; [eauto |]. simpl.
  destruct (map_pages_throws h items v Hin (map_page_bad h v Hbad)) as [e ->].
  simpl. eauto.
Qed.

(** C8. [attach] throws, before it returns any middleware, when the options
    have no [pages] property, when a supplied page is not (or does not load
    to) a constructor function, and when a supplied page is an initialised
    [Page]; with a working engine and no [pages] the error is the one about
    the missing property.  Conversely a middleware that was returned, however
    many requests it has served, runs over pages that all passed these
    checks: none of the three conditions is left to be met by a request. *)
Theorem attach_fails_fast (h : Host) (options : option Options) :
  (misconfigured h options ->
   throws (attach h options) /\ forall a, attach h options <> Ok a) /\
  (default (default_Engine h) (opt_engine (default no_options options)) = Ok () ->
   opt_pages (default no_options options) = None ->
   attach h options = Throw "Missing `pages` property in the options") /\
  (forall a calls,
      attach h options = Ok a ->
      ~ misconfigured h options /\
      exists value items,
        opt_pages (default no_options options) = Some value /\
        listing h value = Ok items /\
        validated h items (pages (serve_all a calls))).
Proof.
  split; [| split].
  - intros H. destruct (attach_misconfigured h options H) as [e He].
    split; [by exists e |]. intros a. by rewrite He.
  - intros He Hp. unfold attach. by rewrite He, Hp.
  - intros a calls Ha. split.
    + intros H. destruct (attach_misconfigured h options H) as [e He]. by rewrite He in Ha.
    + apply attach_Ok in Ha as (value & items & Hp & Hl & Hm & _).
      exists value, items. rewrite pages_serve_all. auto using map_pages_Ok.
Qed.

Lemma attach_fails_fast_witness :
  let options :=
    Some {| opt_engine := None; opt_404 := None;
            opt_pages := Some (VArray [VFunction Sample.home; VPageInstance "/about"]) |} in
  misconfigured Sample.host options /\
  throws (attach Sample.host options) /\
  attach Sample.host None = Throw "Missing `pages` property in the options" /\
  attach Sample.host (Some Sample.options) = Ok Sample.site /\
  ~ misconfigured Sample.host (Some Sample.options).
Proof.
  intros options.
  assert (H : misconfigured Sample.host options).
  { right. exists (VArray [VFunction Sample.home; VPageInstance "/about"]),
      [VFunction Sample.home; VPageInstance "/about"], (VPageInstance "/about").
    split; [reflexivity |]. split; [reflexivity |].
    split; [right; left; reflexivity |]. right. left. by exists "/about". }
  split; [exact H |].
  split; [exact (proj1 (proj1 (attach_fails_fast Sample.host options) H)) |].
  split; [exact (proj1 (proj2 (attach_fails_fast Sample.host None)) eq_refl eq_refl) |].
  split; [reflexivity |].
  exact (proj1 (proj2 (proj2 (attach_fails_fast Sample.host (Some Sample.options)))
                  Sample.site [] eq_refl)).
Defined.

(** ** Comparing methods *)

Ltac case_nat_tests :=
  repeat match goal with
    | |- context [(?x <=? ?y)%nat] => destruct (Nat.leb_spec x y)
    | |- context [(?x =? ?y)%nat] => destruct (Nat.eqb_spec x y)
    | H : context [(?x <=? ?y)%nat] |- _ => destruct (Nat.leb_spec x y)
    | H : context [(?x =? ?y)%nat] |- _ => destruct (Nat.eqb_spec x y)
    end.

Lemma nat_of_ascii_inj (a b : ascii) : nat_of_ascii a = nat_of_ascii b -> a = b.
Proof.
  intros H. rewrite <- (ascii_nat_embedding a), <- (ascii_nat_embedding b). by rewrite H.
Qed.

Lemma nat_of_lower_char (a : ascii) :
  nat_of_ascii (Js.lower_char a)
  = if ((65 <=? nat_of_ascii a)%nat && (nat_of_ascii a <=? 90)%nat)%bool
    then (nat_of_ascii a + 32)%nat else nat_of_ascii a.
Proof.
  unfold Js.lower_char. pose proof (nat_ascii_bounded a).
  destruct (_ && _)%bool eqn:E; [| done].
  apply andb_true_iff in E as [E1 E2]. apply Nat.leb_le in E1, E2.
  apply nat_ascii_embedding. lia.
Qed.

Lemma lower_char_same_letter (a b : ascii) :
  Js.lower_char a = Js.lower_char b <-> Js.same_letter a b = true.
Proof.
  unfold Js.same_letter. split.
  - intros H. apply (f_equal nat_of_ascii) in H. rewrite !nat_of_lower_char in H.
    case_nat_tests; simpl in *; try done; lia.
  - intros H. apply nat_of_ascii_inj. rewrite !nat_of_lower_char.
    case_nat_tests; simpl in *; try done; lia.
Qed.

(** Comparing the lower-cased methods is comparing the methods up to the
    case of their letters. *)
Lemma toLowerCase_eq_ignore_case (s t : string) :
  Js.toLowerCase s = Js.toLowerCase t <-> Js.eq_ignore_case s t = true.
Proof.
  revert t. induction s as [|a s IH]; intros [|b t]; simpl; try done.
  rewrite andb_true_iff, <- IH, <- lower_char_same_letter.
  split; [intros [= -> ->]; done | intros [-> ->]; done].
Qed.

Lemma matches_iff req uri P :
  matches req uri P = true <->
  Js.eq_ignore_case (fn_method (ctor P)) (method req) = true /\
  test (router P) uri = true.
Proof.
  unfold matches.
  by rewrite andb_true_iff, String.eqb_eq, toLowerCase_eq_ignore_case.
Qed.

(** ** What the scan keeps and what it calls *)

(** The pages kept are those [matches] accepts, in the order of [pages]. *)
Lemma filter_pages_kept req uri i ps :
  map snd (fst (filter_pages req uri i ps)) = List.filter (matches req uri) ps.
Proof.
  revert i. induction ps as [|P ps IH]; intros i; simpl; [done |].
  specialize (IH (S i)). destruct (filter_pages req uri (S i) ps) as [kept calls].
  unfold matches at 1. simpl in IH.
  destruct (String.eqb _ _); [destruct (test _ _) |]; simpl; by rewrite IH.
Qed.

Lemma filter_pages_first req uri i before P behind :
  (forall Q, In Q before -> matches req uri Q = false) ->
  matches req uri P = true ->
  exists kept,
    fst (filter_pages req uri i (before ++ P :: behind))
    = ((i + length before)%nat, P) :: kept.
Proof.
  revert i. induction before as [|Q before IH]; intros i Hb HP.
  - simpl. destruct (filter_pages req uri (S i) behind) as [kept calls].
    unfold matches in HP. apply andb_true_iff in HP as [-> ->].
    exists kept. simpl. f_equal. f_equal. lia.
  - simpl. destruct (IH (S i)) as [kept Hk]; [intros; apply Hb; by right | done |].
    destruct (filter_pages req uri (S i) (before ++ P :: behind)) as [kept' calls].
    simpl in Hk. subst kept'.
    assert (HQ : matches req uri Q = false) by (apply Hb; by left).
    unfold matches in HQ. exists kept.
    destruct (String.eqb _ _); [destruct (test _ _) |]; simpl in *; try done.
    all: f_equal; f_equal; lia.
Qed.

Lemma filter_pages_none req uri i ps :
  fst (filter_pages req uri i ps) = [] <->
  forall Q, In Q ps -> matches req uri Q = false.
Proof.
  pose proof (filter_pages_kept req uri i ps) as Hk. split.
  - intros H Q HQ. rewrite H in Hk. simpl in Hk.
    destruct (matches req uri Q) eqn:E; [| done].
    assert (Hin : In Q (List.filter (matches req uri) ps)) by (apply filter_In; auto).
    rewrite <- Hk in Hin. done.
  - intros H.
    assert (Hn : List.filter (matches req uri) ps = []).
    { clear Hk. induction ps as [|P ps IH]; simpl; [done |].
      rewrite (H P) by (by left). apply IH. intros; apply H; by right. }
    rewrite Hn in Hk. by destruct (fst (filter_pages req uri i ps)).
Qed.

(** The callback runs on every page. *)
Lemma filter_pages_calls_all req uri i ps j :
  In (FilterCall j) (snd (filter_pages req uri i ps)) <->
  (i <= j < i + length ps)%nat.
Proof.
  revert i. induction ps as [|P ps IH]; intros i; simpl; [lia |].
  specialize (IH (S i)). destruct (filter_pages req uri (S i) ps) as [kept calls].
  simpl in IH.
  destruct (String.eqb _ _); [destruct (test _ _) |]; simpl; rewrite IH;
    split; intros H; repeat destruct H as [H|H]; try done; try lia;
    try (injection H as <-; lia);
    destruct (decide (j = i)) as [->|]; auto; right; try right; lia.
Qed.

(** [router.test] runs on every page whose method is the request's up to
    case, and on no other. *)
Lemma filter_pages_calls_test req uri i ps j :
  In (RouterTest j) (snd (filter_pages req uri i ps)) <->
  exists P, (i <= j)%nat /\ ps !! (j - i)%nat = Some P /\
            Js.eq_ignore_case (fn_method (ctor P)) (method req) = true.
Proof.
  revert i. induction ps as [|P ps IH]; intros i; simpl.
  - split; [done | by intros (Q & _ & H & _)].
  - specialize (IH (S i)). destruct (filter_pages req uri (S i) ps) as [kept calls].
    simpl in IH.
    assert (Hstep : (exists Q, (i <= j)%nat /\ (P :: ps) !! (j - i)%nat = Some Q /\
                        Js.eq_ignore_case (fn_method (ctor Q)) (method req) = true) <->
                    (j = i /\ Js.eq_ignore_case (fn_method (ctor P)) (method req) = true) \/
                    In (RouterTest j) calls).
    { rewrite IH. split.
      - intros (Q & Hle & Hl & HQ). destruct (decide (j = i)) as [->|Hne].
        + left. replace (i - i)%nat with 0%nat in Hl by lia. simpl in Hl.
          injection Hl as ->. done.
        + right. exists Q. replace (j - i)%nat with (S (j - S i)) in Hl by lia.
          simpl in Hl. split; [lia | done].
      - intros [[-> HP] | (Q & Hle & Hl & HQ)].
        + exists P. replace (i - i)%nat with 0%nat by lia. done.
        + exists Q. replace (j - i)%nat with (S (j - S i)) by lia.
          split; [lia | done]. }
    rewrite Hstep. rewrite <- toLowerCase_eq_ignore_case, <- String.eqb_eq.
    assert (Hhead : forall rest,
               In (RouterTest j) (FilterCall i :: RouterTest i :: rest) <->
               (j = i /\ true = true) \/ In (RouterTest j) rest).
    { intros rest. simpl. split.
      - intros [H | [H | H]]; [done | injection H as <-; auto | auto].
      - intros [[-> _] | H]; auto. }
    destruct (String.eqb _ _); [destruct (test _ _) |]; cbn [snd].
    + apply Hhead.
    + apply Hhead.
    + simpl. split.
      * intros [H | H]; [done | auto].
      * intros [[_ H] | H]; [done | auto].
Qed.

(** On a miss the trace is the lookup, the calls of the scan, and a tail
    that has no call of the scan's callback or of [router.test]. *)
Lemma trace_miss a now req res :
  lookup_at now (route_id req) (routes a) = None ->
  exists tail,
    trace (middlware a now req res)
    = RoutesGet (route_id req)
      :: snd (filter_pages req (Url.parse (url req)) 0 (pages a)) ++ tail /\
    forall j, ~ In (FilterCall j) tail /\ ~ In (RouterTest j) tail.
Proof.
  intros E.
  destruct (fst (filter_pages req (Url.parse (url req)) 0 (pages a)))
    as [|[i P] kept] eqn:F.
  - rewrite (middlware_forward _ _ _ _ E F). eexists. split; [reflexivity |].
    intros j. split; intros [H|H]; done.
  - rewrite (middlware_match _ _ _ _ _ _ _ E F). eexists. split; [reflexivity |].
    intros j. split; intros H; repeat destruct H as [H|H]; done.
Qed.

Lemma in_trace_miss a now req res e :
  lookup_at now (route_id req) (routes a) = None ->
  (exists j, e = FilterCall j \/ e = RouterTest j) ->
  In e (trace (middlware a now req res)) <->
  In e (snd (filter_pages req (Url.parse (url req)) 0 (pages a))).
Proof.
  intros E He. destruct (trace_miss a now req res E) as (tail & -> & Htail).
  split.
  - intros [H | H]; [destruct He as [j [-> | ->]]; done |].
    apply in_app_or in H as [H | H]; [done |].
    destruct He as [j [-> | ->]]; by destruct (Htail j) as [H1 H2].
  - intros H. right. apply in_or_app. by left.
Qed.

(** ** The scan of the registered pages *)

(** C2, as the code has it.  On a miss of the route cache the registered
    pages are filtered in registration order.  A page is kept if and only if
    its method is the request's up to letter case and its router tests true
    on the parsed URL.  The first page kept, the earliest registered one that
    matches, is the one cached under the route key and instantiated.  The
    filter does not stop there: its callback runs on every registered page,
    and [router.test] runs on every page whose method fits, before or after
    the first match. *)
Theorem scan_first_match_wins
    (a : Attached) (now : Z) (req : Request) (res : Response) :
  lookup_at now (route_id req) (routes a) = None ->
  let uri := Url.parse (url req) in
  let o := middlware a now req res in
  (forall P, matches req uri P = true <->
             Js.eq_ignore_case (fn_method (ctor P)) (method req) = true /\
             test (router P) uri = true) /\
  map snd (fst (filter_pages req uri 0 (pages a))) = List.filter (matches req uri) (pages a) /\
  (forall before P behind,
      pages a = before ++ P :: behind ->
      (forall Q, In Q before -> matches req uri Q = false) ->
      matches req uri P = true ->
      page o = Some (instantiate (ctor P) req (exec (router P) uri)) /\
      In (RouterExec (length before)) (trace o) /\
      Expirable.cache (routes (after o)) !! route_id req
      = Some (Expirable.mkEntry
                {| route_Page := P; route_params := exec (router P) uri |} now)) /\
  (forall j, (j < length (pages a))%nat -> In (FilterCall j) (trace o)) /\
  (forall j P, pages a !! j = Some P ->
               (In (RouterTest j) (trace o) <->
                Js.eq_ignore_case (fn_method (ctor P)) (method req) = true)).
Proof.
  intros E uri o. split; [apply matches_iff |]. split; [apply filter_pages_kept |].
  split; [| split].
  - intros before P behind Hp Hb HP.
    destruct (filter_pages_first req uri 0 before P behind Hb HP) as [kept Hk].
    rewrite <- Hp in Hk. unfold o. rewrite (middlware_match _ _ _ _ _ _ _ E Hk).
    cbn [page trace after with_caches routes]. split; [done |]. split.
    + right. apply in_or_app. right. by left.
    + apply lookup_insert_eq.
  - intros j Hj. unfold o. rewrite (in_trace_miss _ _ _ _ _ E) by eauto.
    apply filter_pages_calls_all. lia.
  - intros j P Hl. unfold o. rewrite (in_trace_miss _ _ _ _ _ E) by eauto.
    rewrite filter_pages_calls_test. replace (j - 0)%nat with j by lia. split.
    + intros (Q & _ & HQ & H). rewrite Hl in HQ. by injection HQ as ->.
    + intros H. exists P. split; [lia | done].
Qed.

Lemma scan_first_match_wins_witness :
  lookup_at 1000 (route_id Sample.get_home) (routes Sample.site) = None /\
  In (FilterCall 1) (trace (middlware Sample.site 1000 Sample.get_home fresh_response)).
Proof.
  assert (E : lookup_at 1000 (route_id Sample.get_home) (routes Sample.site) = None)
    by reflexivity.
  split; [exact E |].
  destruct (scan_first_match_wins Sample.site 1000 Sample.get_home fresh_response E)
    as (_ & _ & _ & H & _).
  apply (H 1%nat). simpl. lia.
Defined.

(** C2, as stated, fails on its last part: with [Home] and [Landing] both
    registered for [GET /], the request misses the cache, the first page,
    [Home], matches and is the one instantiated, and still the callback and
    [router.test] run on the second page. *)
Lemma scan_does_not_stop_at_first_match :
  let req := Sample.get_home in
  let o := middlware Sample.site 1000 req fresh_response in
  lookup_at 1000 (route_id req) (routes Sample.site) = None /\
  (exists P behind, pages Sample.site = P :: behind /\
                    matches req (Url.parse (url req)) P = true /\
                    page o = Some (instantiate (ctor P) req
                                     (exec (router P) (Url.parse (url req))))) /\
  In (FilterCall 1) (trace o) /\
  In (RouterTest 1) (trace o) /\
  ~ (forall j, (0 < j)%nat -> ~ In (FilterCall j) (trace o)).
Proof.
  split; [reflexivity |]. split; [eexists; eexists; repeat split; reflexivity |].
  assert (H : In (FilterCall 1)
                (trace (middlware Sample.site 1000 Sample.get_home fresh_response))).
  { vm_compute. auto 10. }
  split; [exact H |]. split; [vm_compute; auto 10 |].
  intros C. apply (C 1%nat); [lia | exact H].
Qed.

(** ** Counting the calls of [router.test] *)

Lemma count_cons f e t : count f (e :: t) = ((if f e then 1 else 0) + count f t)%nat.
Proof. unfold count. simpl. by destruct (f e). Qed.

Lemma filter_pages_index_ge req uri i ps j P :
  In (j, P) (fst (filter_pages req uri i ps)) -> (i <= j)%nat.
Proof.
  revert i. induction ps as [|Q ps IH]; intros i; simpl; [done |].
  specialize (IH (S i)). destruct (filter_pages req uri (S i) ps) as [kept calls].
  simpl in IH.
  destruct (String.eqb _ _); [destruct (test _ _) |]; simpl; intros H.
  - destruct H as [[= <- _] | H]; [lia | specialize (IH H); lia].
  - specialize (IH H); lia.
  - specialize (IH H); lia.
Qed.

Lemma count_test_below req uri i ps j :
  (j < i)%nat -> count (is_test j) (snd (filter_pages req uri i ps)) = 0%nat.
Proof.
  revert i. induction ps as [|Q ps IH]; intros i Hj; simpl; [done |].
  specialize (IH (S i)). destruct (filter_pages req uri (S i) ps) as [kept calls].
  simpl in IH. rewrite <- IH by lia.
  assert (Hi : (i =? j)%nat = false) by (apply Nat.eqb_neq; lia).
  destruct (String.eqb _ _); [destruct (test _ _) |]; simpl;
    rewrite !count_cons; simpl; by rewrite ?Hi.
Qed.

(** [router.test] runs exactly once on a page the scan keeps. *)
Lemma count_test_kept req uri i ps j P :
  In (j, P) (fst (filter_pages req uri i ps)) ->
  count (is_test j) (snd (filter_pages req uri i ps)) = 1%nat.
Proof.
  revert i. induction ps as [|Q ps IH]; intros i; simpl; [done |].
  pose proof (filter_pages_index_ge req uri (S i) ps j P) as Hge.
  pose proof (count_test_below req uri (S i) ps i) as Hlow.
  specialize (IH (S i)). destruct (filter_pages req uri (S i) ps) as [kept calls].
  simpl in IH, Hge, Hlow.
  destruct (String.eqb _ _); [destruct (test _ _) |]; simpl; intros H;
    rewrite !count_cons; simpl.
  - destruct H as [[= <- _] | H].
    + rewrite Nat.eqb_refl, Hlow; [done | lia].
    + specialize (Hge H). replace (i =? j)%nat with false
        by (symmetry; apply Nat.eqb_neq; lia). by apply IH.
  - specialize (Hge H). replace (i =? j)%nat with false
      by (symmetry; apply Nat.eqb_neq; lia). by apply IH.
  - by apply IH.
Qed.

Lemma count_exec_calls req uri i ps j :
  count (is_exec j) (snd (filter_pages req uri i ps)) = 0%nat.
Proof. by apply count_scan_calls. Qed.

(** ** The route cache *)

(** C1. A request whose route key has a live entry in the route cache gets
    its page from the cached constructor and the cached parameters; the
    trace of the call has no event of the scan: no callback of the filter, no
    [router.test], no [router.exec].  When the cache misses and the scan
    keeps a page, the route is stored under the route key before the page is
    created; a later request with the same method and pathname, made before
    the entry has been idle for the window of the cache, takes the first
    path, with the constructor and parameters of the first request; over the
    two calls [router.test] has run once on each page the scan kept, the
    chosen one among them, and [router.exec] once. *)
Theorem route_cache_memoizes
    (a : Attached) (now : Z) (req : Request) (res : Response) :
  let id := route_id req in
  let uri := Url.parse (url req) in
  let o := middlware a now req res in
  (forall R,
      lookup_at now id (routes a) = Some R ->
      page o = Some (instantiate (ctor (route_Page R)) req (route_params R)) /\
      trace o = [RoutesGet id; New (ctor (route_Page R)) (route_params R);
                 OnError (Fivehundered req); InstancesSet (instance_key req)] /\
      count is_scan (trace o) = 0%nat) /\
  (forall i P kept,
      lookup_at now id (routes a) = None ->
      fst (filter_pages req uri 0 (pages a)) = (i, P) :: kept ->
      let params := exec (router P) uri in
      (exists calls,
          trace o = RoutesGet id :: calls ++
                    [RouterExec i; RoutesSet id; New (ctor P) params;
                     OnError (Fivehundered req); InstancesSet (instance_key req)]) /\
      Expirable.cache (routes (after o)) !! id
      = Some (Expirable.mkEntry {| route_Page := P; route_params := params |} now) /\
      forall later req' res',
        method req' = method req ->
        Url.pathname (Url.parse (url req')) = Url.pathname uri ->
        later - now < Expirable.expire (routes a) ->
        let o' := middlware (after o) later req' res' in
        page o' = Some (instantiate (ctor P) req' params) /\
        trace o' = [RoutesGet id; New (ctor P) params;
                    OnError (Fivehundered req'); InstancesSet (instance_key req')] /\
        count is_scan (trace o') = 0%nat /\
        (forall j Q, In (j, Q) ((i, P) :: kept) ->
                     count (is_test j) (trace o ++ trace o') = 1%nat) /\
        count (is_exec i) (trace o ++ trace o') = 1%nat).
Proof.
  intros id uri o. split.
  - intros R E. unfold o. rewrite (middlware_hit _ _ _ _ _ E). done.
  - intros i P kept E F params.
    assert (Ho : o = middlware a now req res) by done.
    rewrite (middlware_match _ _ _ _ _ _ _ E F) in Ho. cbv zeta in Ho.
    fold uri id params in Ho.
    split; [rewrite Ho; cbn [trace]; eauto |].
    split; [rewrite Ho; cbn [after with_caches routes]; apply lookup_insert_eq |].
    intros later req' res' Hm Hp Hlater o'.
    assert (Hid : route_id req' = id) by (unfold id, route_id; by rewrite Hm, Hp).
    assert (E' : lookup_at later (route_id req') (routes (after o))
                 = Some {| route_Page := P; route_params := params |}).
    { rewrite Hid, Ho. cbn [after with_caches routes].
      apply lookup_at_set. by rewrite expire_get. }
    unfold o'. rewrite (middlware_hit _ _ _ _ _ E'). cbv zeta.
    cbn [page trace route_Page route_params]. rewrite Hid.
    split; [done |]. split; [done |]. split; [done |].
    rewrite Ho. cbn [trace].
    change (RoutesGet id :: ?t ++ ?u) with ([RoutesGet id] ++ t ++ u).
    split.
    + intros j Q Hin. rewrite !count_app.
      rewrite (count_test_kept req uri 0 (pages a) j Q) by (by rewrite F).
      by rewrite !count_cons.
    + rewrite !count_app, count_exec_calls, !count_cons. simpl.
      by rewrite Nat.eqb_refl.
Qed.

Lemma route_cache_memoizes_witness :
  lookup_at 1000 (route_id Sample.get_home) (routes Sample.site) = None /\
  method Sample.get_home_again = method Sample.get_home /\
  Url.pathname (Url.parse (url Sample.get_home_again))
  = Url.pathname (Url.parse (url Sample.get_home)) /\
  2000 - 1000 < Expirable.expire (routes Sample.site) /\
  let o := middlware Sample.site 1000 Sample.get_home fresh_response in
  let o' := middlware (after o) 2000 Sample.get_home_again fresh_response in
  count (is_test 0) (trace o ++ trace o') = 1%nat.
Proof.
  assert (E : lookup_at 1000 (route_id Sample.get_home) (routes Sample.site) = None)
    by reflexivity.
  split; [exact E |]. split; [reflexivity |]. split; [reflexivity |]. split; [reflexivity |].
  destruct (route_cache_memoizes Sample.site 1000 Sample.get_home fresh_response)
    as [_ H].
  destruct (H 0%nat _ _ E eq_refl) as (_ & _ & H2).
  destruct (H2 2000 Sample.get_home_again fresh_response eq_refl eq_refl eq_refl)
    as (_ & _ & _ & H3 & _).
  apply (H3 0%nat {| ctor := Sample.home; router := Sample.literal_router "/" |}).
  by left.
Defined.

(** ** Keys and the case of the method *)

Lemma route_id_method_inj req req' :
  url req = url req' -> route_id req = route_id req' -> method req = method req'.
Proof.
  unfold route_id. intros -> H. by apply append_inj_r in H.
Qed.

Lemma instance_key_route_id_inj req req' :
  sessionID req = sessionID req' ->
  instance_key req = instance_key req' -> route_id req = route_id req'.
Proof.
  unfold instance_key. intros -> H. apply append_inj_l in H. by apply append_inj_l in H.
Qed.

(** A call touches the route cache at the key of its request only. *)
Lemma cache_routes_other a now req res key :
  route_id req <> key ->
  Expirable.cache (routes (after (middlware a now req res))) !! key
  = Expirable.cache (routes a) !! key.
Proof.
  intros Hne. destruct (lookup_at now (route_id req) (routes a)) as [R|] eqn:E.
  - rewrite (middlware_hit _ _ _ _ _ E). cbn [after with_caches routes].
    by apply cache_get_ne.
  - destruct (fst (filter_pages req (Url.parse (url req)) 0 (pages a)))
      as [|[i P] kept] eqn:F.
    + rewrite (middlware_forward _ _ _ _ E F). cbn [after with_caches routes].
      by apply cache_get_ne.
    + rewrite (middlware_match _ _ _ _ _ _ _ E F). cbn [after with_caches routes].
      rewrite cache_set_ne by done. by apply cache_get_ne.
Qed.

Lemma lookup_routes_other a now req res later key :
  route_id req <> key ->
  lookup_at later key (routes (after (middlware a now req res)))
  = lookup_at later key (routes a).
Proof.
  intros Hne. apply lookup_at_ext.
  - apply expire_routes_middlware.
  - by apply cache_routes_other.
Qed.

(** [router.test] has run on every page the scan keeps. *)
Lemma in_test_kept req uri i ps j P :
  In (j, P) (fst (filter_pages req uri i ps)) ->
  In (RouterTest j) (snd (filter_pages req uri i ps)).
Proof.
  revert i. induction ps as [|Q ps IH]; intros i; simpl; [done |].
  specialize (IH (S i)). destruct (filter_pages req uri (S i) ps) as [kept calls].
  simpl in IH.
  destruct (String.eqb _ _); [destruct (test _ _) |]; simpl; intros H.
  - destruct H as [[= <- _] | H]; auto.
  - auto.
  - auto.
Qed.

(** C10. Two requests that differ in the letter case of the method only
    ([GET] and [get]) are matched alike by the scan, which keeps the same
    pages for both, yet have different route keys and different registry
    keys.  Serving one leaves the cache entry of the other as it was; so,
    when neither is cached and the scan keeps a page, each of the two runs
    its own scan and stores its own entry, both entries holding the same
    page. *)
Theorem method_case_splits_the_caches
    (a : Attached) (now : Z) (req : Request) (res : Response) (m' : string) :
  method req <> m' ->
  Js.toLowerCase (method req) = Js.toLowerCase m' ->
  let req' := with_method m' req in
  let uri := Url.parse (url req) in
  let o := middlware a now req res in
  filter_pages req' uri 0 (pages a) = filter_pages req uri 0 (pages a) /\
  route_id req <> route_id req' /\
  instance_key req <> instance_key req' /\
  (forall later,
      lookup_at later (route_id req') (routes (after o))
      = lookup_at later (route_id req') (routes a)) /\
  (forall i P kept later res',
      lookup_at now (route_id req) (routes a) = None ->
      lookup_at later (route_id req') (routes a) = None ->
      fst (filter_pages req uri 0 (pages a)) = (i, P) :: kept ->
      let o' := middlware (after o) later req' res' in
      let params := exec (router P) uri in
      let cached := {| route_Page := P; route_params := params |} in
      page o = Some (instantiate (ctor P) req params) /\
      page o' = Some (instantiate (ctor P) req' params) /\
      In (RouterTest i) (trace o) /\ In (RoutesSet (route_id req)) (trace o) /\
      In (RouterTest i) (trace o') /\ In (RoutesSet (route_id req')) (trace o') /\
      Expirable.cache (routes (after o')) !! route_id req
      = Some (Expirable.mkEntry cached now) /\
      Expirable.cache (routes (after o')) !! route_id req'
      = Some (Expirable.mkEntry cached later)).
Proof.
  intros Hm Hl req' uri o.
  assert (Hid : route_id req <> route_id req').
  { intros H. by apply route_id_method_inj in H. }
  assert (Hf : filter_pages req' uri 0 (pages a) = filter_pages req uri 0 (pages a)).
  { apply filter_pages_method. by rewrite Hl. }
  split; [exact Hf |]. split; [exact Hid |]. split; [| split].
  - intros H. by apply instance_key_route_id_inj in H.
  - intros later. by apply lookup_routes_other.
  - intros i P kept later res' E E' F o' params cached.
    assert (Ho : o = middlware a now req res) by done.
    rewrite (middlware_match _ _ _ _ _ _ _ E F) in Ho. cbv zeta in Ho.
    assert (E2 : lookup_at later (route_id req') (routes (after o)) = None).
    { unfold o. by rewrite lookup_routes_other. }
    assert (F2 : fst (filter_pages req' (Url.parse (url req')) 0 (pages (after o)))
                 = (i, P) :: kept).
    { unfold o. rewrite pages_middlware. change (url req') with (url req).
      fold uri. by rewrite Hf. }
    assert (Ho' : o' = middlware (after o) later req' res') by done.
    rewrite (middlware_match _ _ _ _ _ _ _ E2 F2) in Ho'. cbv zeta in Ho'.
    change (url req') with (url req) in Ho'. fold uri params cached in Ho, Ho'.
    assert (Ht : In (RouterTest i) (snd (filter_pages req uri 0 (pages a)))).
    { apply (in_test_kept _ _ _ _ _ P). rewrite F. by left. }
    split; [by rewrite Ho |]. split; [by rewrite Ho' |].
    split.
    { rewrite Ho. cbn [trace]. right. apply in_or_app. by left. }
    split.
    { rewrite Ho. cbn [trace]. right. apply in_or_app. right. simpl. auto. }
    split.
    { rewrite Ho'. cbn [trace]. right. apply in_or_app. left.
      unfold o. by rewrite pages_middlware, Hf. }
    split.
    { rewrite Ho'. cbn [trace]. right. apply in_or_app. right. simpl. auto. }
    split.
    + rewrite Ho'. cbn [after with_caches routes].
      rewrite cache_set_ne by done. rewrite cache_get_ne by done.
      rewrite Ho. cbn [after with_caches routes]. apply cache_set_eq.
    + rewrite Ho'. cbn [after with_caches routes]. apply cache_set_eq.
Qed.

Lemma method_case_splits_the_caches_witness :
  method Sample.get_home <> "get" /\
  Js.toLowerCase (method Sample.get_home) = Js.toLowerCase "get" /\
  route_id Sample.get_home <> route_id (with_method "get" Sample.get_home) /\
  instance_key Sample.get_home <> instance_key (with_method "get" Sample.get_home).
Proof.
  assert (Hm : method Sample.get_home <> "get") by discriminate.
  assert (Hl : Js.toLowerCase (method Sample.get_home) = Js.toLowerCase "get")
    by reflexivity.
  split; [exact Hm |]. split; [exact Hl |].
  destruct (method_case_splits_the_caches Sample.site 1000 Sample.get_home
              fresh_response "get" Hm Hl) as (_ & H1 & H2 & _).
  split; [exact H1 | exact H2].
Defined.

(** ** Requests no page matches *)

Lemma split_at_unique (c : ascii) (m m0 p p0 : string) :
  occurs c m = false -> occurs c m0 = false ->
  m +:+ String c p = m0 +:+ String c p0 -> m = m0 /\ p = p0.
Proof.
  revert m0. induction m as [|d m IH]; intros [|d0 m0]; rewrite ?append_cons, ?append_nil;
    simpl; intros Hm Hm0 H.
  - by injection H as ->.
  - injection H as -> _. by rewrite Ascii.eqb_refl in Hm0.
  - injection H as <- _. by rewrite Ascii.eqb_refl in Hm.
  - injection H as -> H. apply orb_false_iff in Hm as [_ Hm].
    apply orb_false_iff in Hm0 as [_ Hm0]. destruct (IH m0 Hm Hm0 H) as [-> ->]. done.
Qed.

Lemma pathname_origin_form (rest : string) :
  exists p, Url.pathname (Url.parse (String "/" rest)) = Some p.
Proof.
  unfold Url.parse. simpl. destruct (Url.break_at "#" rest) as [p1 h].
  simpl. destruct (Url.break_at "?" p1) as [p2 q]. simpl. eauto.
Qed.

Lemma route_id_inj req req' :
  well_formed req -> well_formed req' ->
  route_id req = route_id req' ->
  method req = method req' /\
  Url.pathname (Url.parse (url req)) = Url.pathname (Url.parse (url req')).
Proof.
  intros [Hm [rest Hu]] [Hm' [rest' Hu']]. unfold route_id. rewrite Hu, Hu'.
  destruct (pathname_origin_form rest) as [p ->].
  destruct (pathname_origin_form rest') as [p' ->]. simpl.
  intros H. apply (split_at_unique "@") in H as [-> ->]; done.
Qed.

Lemma kept_matches req uri i ps j P :
  In (j, P) (fst (filter_pages req uri i ps)) -> In P ps /\ matches req uri P = true.
Proof.
  intros H. apply (in_map snd) in H. rewrite filter_pages_kept in H.
  by apply filter_In in H.
Qed.

Lemma routes_sound_middlware a now req res :
  (forall P, In P (pages a) -> by_pathname (router P)) ->
  well_formed req ->
  routes_sound a -> routes_sound (after (middlware a now req res)).
Proof.
  intros Hr Hw Inv key req' Hk Hw' Hid. rewrite pages_middlware.
  destruct (lookup_at now (route_id req) (routes a)) as [R|] eqn:E.
  - rewrite (middlware_hit _ _ _ _ _ E) in Hk. cbn [after with_caches routes] in Hk.
    apply cache_get_is_Some in Hk. by apply (Inv key).
  - destruct (fst (filter_pages req (Url.parse (url req)) 0 (pages a)))
      as [|[i P] kept] eqn:F.
    + rewrite (middlware_forward _ _ _ _ E F) in Hk. cbn [after with_caches routes] in Hk.
      apply cache_get_is_Some in Hk. by apply (Inv key).
    + rewrite (middlware_match _ _ _ _ _ _ _ E F) in Hk.
      cbn [after with_caches routes] in Hk.
      destruct (decide (route_id req = key)) as [Heq | Hne].
      * destruct (kept_matches req (Url.parse (url req)) 0 (pages a) i P) as [HP HM];
          [rewrite F; by left |].
        exists P. split; [done |].
        destruct (route_id_inj req' req Hw' Hw) as [Hm Hp]; [congruence |].
        unfold matches in *. by rewrite Hm, (Hr P HP _ _ Hp).
      * rewrite cache_set_ne in Hk by done.
        apply cache_get_is_Some in Hk. by apply (Inv key).
Qed.

Lemma routes_sound_serve_all a calls :
  (forall P, In P (pages a) -> by_pathname (router P)) ->
  Forall (fun c => well_formed (call_req c)) calls ->
  routes_sound a -> routes_sound (serve_all a calls).
Proof.
  revert a. induction calls as [|c calls IH]; intros a Hr Hw Inv; simpl; [done |].
  inversion Hw as [|? ? Hc Hcs]; subst. apply IH.
  - unfold serve. by rewrite pages_middlware.
  - done.
  - by apply routes_sound_middlware.
Qed.

Lemma routes_sound_attach h options a :
  attach h options = Ok a -> routes_sound a.
Proof.
  intros H. apply attach_Ok in H as (_ & _ & _ & _ & _ & _ & Hr & _).
  intros key req [e He]. rewrite Hr in He. done.
Qed.

Lemma forwarded_miss a now req res :
  lookup_at now (route_id req) (routes a) = None ->
  no_match a req ->
  forwarded a req res (middlware a now req res).
Proof.
  intros E Hn. apply filter_pages_none with (i := 0%nat) in Hn.
  rewrite (middlware_forward _ _ _ _ E Hn). unfold forwarded.
  cbn [trace response page after with_caches instances].
  assert (Hc : count is_next (snd (filter_pages req (Url.parse (url req)) 0 (pages a)))
               = 0%nat) by (by apply count_scan_calls).
  split; [eauto |]. split; [| done].
  change (RoutesGet (route_id req) :: ?t ++ [Next])
    with ([RoutesGet (route_id req)] ++ t ++ [Next]).
  by rewrite !count_app, Hc.
Qed.

(** C3, as the code has it.  A request that finds no live entry in the
    route cache and that no registered page matches is forwarded: [next] is
    called exactly once, the response object is left as it was (no status, no
    body), no page is created and nothing is stored in the registry, whether
    or not a ['404'] page was configured.  A request that finds its route
    cached is served from the cache without any matcher being asked; after
    [attach], over any sequence of well-formed requests and with routers that
    decide on the pathname, the route cache never holds an entry for a
    request that no page matches, and such a request is always forwarded. *)
Theorem no_match_forwards :
  (forall a now req res nf,
      lookup_at now (route_id req) (routes a) = None ->
      no_match a req ->
      forwarded (with_NotFound nf a) req res
        (middlware (with_NotFound nf a) now req res)) /\
  (forall h options a calls now req res,
      attach h options = Ok a ->
      (forall P, In P (pages a) -> by_pathname (router P)) ->
      Forall (fun c => well_formed (call_req c)) calls ->
      well_formed req ->
      no_match a req ->
      lookup_at now (route_id req) (routes (serve_all a calls)) = None /\
      forwarded (serve_all a calls) req res (middlware (serve_all a calls) now req res)).
Proof.
  split.
  - intros a now req res nf E Hn. by apply forwarded_miss.
  - intros h options a calls now req res Ha Hr Hc Hw Hn.
    assert (E : lookup_at now (route_id req) (routes (serve_all a calls)) = None).
    { destruct (lookup_at now _ _) as [R|] eqn:E; [| done].
      apply lookup_at_Some in E as (e & He & _).
      destruct (routes_sound_serve_all a calls Hr Hc (routes_sound_attach _ _ _ Ha)
                  (route_id req) req) as (Q & HQ & HM); [by exists e | done | done |].
      rewrite pages_serve_all in HQ. by rewrite (Hn Q HQ) in HM. }
    split; [exact E |]. apply forwarded_miss; [exact E |].
    unfold no_match. by rewrite pages_serve_all.
Qed.

Lemma no_match_forwards_witness :
  let calls := [mkCall 1000 Sample.get_home fresh_response] in
  attach Sample.host (Some Sample.options) = Ok Sample.site /\
  (forall P, In P (pages Sample.site) -> by_pathname (router P)) /\
  Forall (fun c => well_formed (call_req c)) calls /\
  well_formed Sample.get_other /\
  no_match Sample.site Sample.get_other /\
  lookup_at 1000 (route_id Sample.get_other) (routes Sample.site) = None /\
  forwarded (with_NotFound None Sample.site) Sample.get_other fresh_response
    (middlware (with_NotFound None Sample.site) 1000 Sample.get_other fresh_response) /\
  forwarded (serve_all Sample.site calls) Sample.get_other fresh_response
    (middlware (serve_all Sample.site calls) 2000 Sample.get_other fresh_response).
Proof.
  intros calls.
  assert (Ha : attach Sample.host (Some Sample.options) = Ok Sample.site) by reflexivity.
  assert (Hr : forall P, In P (pages Sample.site) -> by_pathname (router P)).
  { intros P [<- | [<- | []]]; intros u u' Hu; simpl; by rewrite Hu. }
  assert (Hc : Forall (fun c => well_formed (call_req c)) calls).
  { constructor; [| constructor]. split; [reflexivity | by eexists]. }
  assert (Hw : well_formed Sample.get_other).
  { split; [reflexivity | by eexists]. }
  assert (Hn : no_match Sample.site Sample.get_other).
  { intros Q [<- | [<- | []]]; reflexivity. }
  assert (E : lookup_at 1000 (route_id Sample.get_other) (routes Sample.site) = None)
    by reflexivity.
  split; [exact Ha |]. split; [exact Hr |]. split; [exact Hc |]. split; [exact Hw |].
  split; [exact Hn |]. split; [exact E |]. split.
  - exact (proj1 no_match_forwards Sample.site 1000 Sample.get_other fresh_response
             None E Hn).
  - exact (proj2 (proj2 no_match_forwards Sample.host (Some Sample.options) Sample.site
                    calls 2000 Sample.get_other fresh_response Ha Hr Hc Hw Hn)).
Defined.

(** C3, as stated, fails.  The page [Promo] brings a router that accepts
    [/a?x=1] only.  After [GET /a?x=1] has been served, [GET /a?x=2], a
    well-formed request that no registered page matches, finds the route
    cached under [GET@/a]: the page is created and stored, and [next] is not
    called. *)
Lemma cached_route_serves_unmatched_request :
  let o1 := middlware Campaign.site 1000 Campaign.with_x1 fresh_response in
  let o2 := middlware (after o1) 2000 Campaign.with_x2 fresh_response in
  attach Sample.host (Some Campaign.options) = Ok Campaign.site /\
  well_formed Campaign.with_x2 /\
  no_match Campaign.site Campaign.with_x2 /\
  no_match (after o1) Campaign.with_x2 /\
  trace o2 = [RoutesGet "GET@/a"; New Campaign.promo [];
              OnError (Fivehundered Campaign.with_x2); InstancesSet "undefined:GET@/a"] /\
  count is_next (trace o2) = 0%nat /\
  page o2 = Some (instantiate Campaign.promo Campaign.with_x2 []) /\
  ~ forwarded (after o1) Campaign.with_x2 fresh_response o2.
Proof.
  intros o1 o2.
  assert (Hn : no_match Campaign.site Campaign.with_x2).
  { intros Q [<- | []]. reflexivity. }
  split; [reflexivity |]. split; [split; [reflexivity | by eexists] |].
  split; [exact Hn |]. split; [exact Hn |].
  split; [reflexivity |]. split; [reflexivity |]. split; [reflexivity |].
  intros (_ & _ & _ & Hp & _). discriminate Hp.
Qed.

(** * Further properties *)

(** ** [attach]: when it succeeds and what it returns *)

Lemma map_page_accepted h v P : map_page h v = Ok P <-> accepted h v P.
Proof.
  unfold map_page, accepted. split.
  - destruct (load h v) as [w|e]; simpl; [| done].
    destruct w as [| | | | | | |items|f]; try done.
    destruct (fn_initialized f) as [p|] eqn:Ei; [done |].
    destruct (fn_router f) as [r|] eqn:Er.
    + intros [= <-]. simpl. by rewrite Ei, Er.
    + destruct (Routable h (fn_path f)) as [r|e] eqn:ER; simpl; [| done].
      intros [= <-]. simpl. by rewrite Ei, Er.
  - destruct P as [f r]. simpl. intros (Hl & Hi & H). rewrite Hl. simpl. rewrite Hi.
    destruct (fn_router f) as [r'|]; [by subst | by rewrite H].
Qed.

Lemma map_pages_accepted h items ps :
  map_pages h items = Ok ps <-> Forall2 (accepted h) items ps.
Proof.
  revert ps. induction items as [|v items IH]; intros ps; simpl.
  - split; [intros [= <-]; constructor | by inversion 1].
  - split.
    + destruct (map_page h v) as [P|e] eqn:E; simpl; [| done].
      destruct (map_pages h items) as [ps'|e] eqn:E'; simpl; [| done].
      intros [= <-]. constructor; [by apply map_page_accepted | by apply IH].
    + inversion 1 as [|? P ? ps' HP Hps]; subst.
      apply map_page_accepted in HP. apply IH in Hps. by rewrite HP, Hps.
Qed.

(** X1. [attach] returns a middleware exactly when the engine constructor
    returns, the options have a [pages] property, the pages can be listed,
    and every page supplied is accepted; the closure then holds the accepted
    pages in the order supplied, each with the router it brought or the one
    built from its [prototype.path], two empty caches, and the ['404'] option
    as given, unchecked. *)
Theorem attach_succeeds_iff (h : Host) (options : option Options) (a : Attached) :
  attach h options = Ok a <->
  chosen_Engine h options = Ok () /\
  exists value items,
    opt_pages (default no_options options) = Some value /\
    listing h value = Ok items /\
    Forall2 (accepted h) items (pages a) /\
    instances a = Expirable.new (touch_policy h) "5 minutes" /\
    routes a = Expirable.new (touch_policy h) "5 minutes" /\
    NotFound a = opt_404 (default no_options options).
Proof.
  unfold attach, chosen_Engine. split.
  - destruct (default (default_Engine h) (opt_engine (default no_options options)))
      as [[]|e]; simpl; [| done].
    destruct (opt_pages (default no_options options)) as [value|]; [| done].
    destruct (listing h value) as [items|e] eqn:El; simpl; [| done].
    destruct (map_pages h items) as [ps|e] eqn:Em; simpl; [| done].
    intros [= <-]. split; [done |]. exists value, items. simpl.
    apply map_pages_accepted in Em. repeat split; done.
  - intros (-> & value & items & -> & Hl & Hps & Hi & Hr & Hn). simpl.
    rewrite Hl. simpl. apply map_pages_accepted in Hps. rewrite Hps. simpl.
    destruct a as [i r n ps]. simpl in *. by subst.
Qed.

Lemma attach_succeeds_iff_witness :
  attach Disk.host (Some Disk.options)
  = Ok {| instances := Expirable.new true "5 minutes";
          routes := Expirable.new true "5 minutes";
          NotFound := None;
          pages := [ {| ctor := Sample.home; router := Sample.literal_router "/" |};
                     {| ctor := Sample.landing; router := Sample.literal_router "/" |} ] |}.
Proof.
  apply (proj2 (attach_succeeds_iff Disk.host (Some Disk.options) _)).
  split; [reflexivity |].
  exists (VString "/srv/pages"),
    [VString "/srv/pages/home.js"; VString "/srv/pages/landing.js"].
  split; [reflexivity |]. split; [reflexivity |].
  split; [| repeat split; reflexivity].
  repeat constructor.
Defined.

(** X2. When [pages] is not an array it is a directory: [attach] lists it
    once and goes on as if it had been given the array of the resolved file
    names, in the order of the listing; every page then comes through
    [require]. *)
Theorem attach_directory_is_attach_list
    (h : Host) (o : Options) (dir : Value) (files : list string) :
  opt_pages o = Some dir ->
  is_array dir = false ->
  readdirSync h dir = Ok files ->
  attach h (Some o)
  = attach h (Some (with_pages
                      (VArray (map (fun file => VString (resolve h dir file)) files)) o)).
Proof.
  intros Hp Ha Hf. unfold attach. simpl. rewrite Hp.
  destruct (default (default_Engine h) (opt_engine o)) as [[]|e]; simpl; [| done].
  destruct dir; try done; simpl; by rewrite Hf.
Qed.

Lemma attach_directory_is_attach_list_witness :
  opt_pages Disk.options = Some (VString "/srv/pages") /\
  is_array (VString "/srv/pages") = false /\
  readdirSync Disk.host (VString "/srv/pages") = Ok ["home.js"; "landing.js"] /\
  attach Disk.host (Some Disk.options)
  = attach Disk.host
      (Some (with_pages (VArray [VString "/srv/pages/home.js";
                                 VString "/srv/pages/landing.js"]) Disk.options)).
Proof.
  split; [reflexivity |]. split; [reflexivity |]. split; [reflexivity |].
  apply (attach_directory_is_attach_list Disk.host Disk.options (VString "/srv/pages")
           ["home.js"; "landing.js"]); reflexivity.
Defined.

(** ** [attach]: which error it throws *)

Lemma map_pages_first_throw h good v rest ps e :
  Forall2 (accepted h) good ps ->
  map_page h v = Throw e ->
  map_pages h (good ++ v :: rest) = Throw e.
Proof.
  intros Hg Hv. induction Hg as [|w P good ps HP Hg IH]; simpl.
  - by rewrite Hv.
  - apply map_page_accepted in HP. by rewrite HP, IH.
Qed.

(** X3. [attach] throws the first error it meets, in the order of its
    statements: an engine constructor that throws stops it before the options
    are looked at, even without [pages]; then a directory that cannot be
    listed; then the first page, in the order supplied, that is not accepted,
    whatever comes after it. *)
Theorem attach_throws_first_error (h : Host) (options : option Options) :
  (forall e, chosen_Engine h options = Throw e -> attach h options = Throw e) /\
  (chosen_Engine h options = Ok () ->
   forall value,
     opt_pages (default no_options options) = Some value ->
     (forall e, listing h value = Throw e -> attach h options = Throw e) /\
     (forall good v rest ps e,
         listing h value = Ok (good ++ v :: rest) ->
         Forall2 (accepted h) good ps ->
         map_page h v = Throw e ->
         attach h options = Throw e)).
Proof.
  unfold attach, chosen_Engine. split.
  - by intros e ->.
  - intros -> value ->. simpl. split.
    + by intros e ->.
    + intros good v rest ps e -> Hg Hv. simpl.
      by rewrite (map_pages_first_throw _ _ _ _ _ _ Hg Hv).
Qed.

Lemma attach_throws_first_error_witness :
  let options :=
    Some {| opt_engine := None; opt_404 := None;
            opt_pages := Some (VArray [VFunction Sample.home; VNumber 7; VNull]) |} in
  chosen_Engine Sample.host options = Ok () /\
  map_page Sample.host (VNumber 7) = Throw "Invalid page type: number" /\
  attach Sample.host options = Throw "Invalid page type: number" /\
  attach Sample.host
    (Some {| opt_engine := Some (Throw "listen EADDRINUSE"); opt_404 := None;
             opt_pages := None |})
  = Throw "listen EADDRINUSE".
Proof.
  intros options.
  assert (He : chosen_Engine Sample.host options = Ok ()) by reflexivity.
  assert (Hv : map_page Sample.host (VNumber 7) = Throw "Invalid page type: number")
    by reflexivity.
  split; [exact He |]. split; [exact Hv |]. split.
  - apply (proj2 (proj2 (attach_throws_first_error Sample.host options) He
                    (VArray [VFunction Sample.home; VNumber 7; VNull]) eq_refl)
             [VFunction Sample.home] (VNumber 7) [VNull]
             [ {| ctor := Sample.home; router := Sample.literal_router "/" |} ]
             "Invalid page type: number" eq_refl); [| exact Hv].
    repeat constructor.
  - apply (proj1 (attach_throws_first_error Sample.host _) "listen EADDRINUSE").
    reflexivity.
Defined.

(** X4. What the callback of [pages.map] throws for a page it does not
    accept: the error of [require] for a module that does not load; [Invalid
    page type:] and the [typeof] of the value for anything that is not a
    function, a loaded module that is itself a string included (it is not
    loaded again); the message about an initialised page for a function that
    is [instanceof Page]; and the error of [Routable] when a router has to be
    built and the pattern is refused.  A function that brings its own router
    never reaches [Routable]. *)
Theorem rejected_page_error (h : Host) (v : Value) :
  (forall e, load h v = Throw e -> map_page h v = Throw e) /\
  (forall w, load h v = Ok w -> typeof w <> Js.TFunction ->
             map_page h v = Throw ("Invalid page type: " +:+ Js.typeof_name (typeof w))) /\
  (forall f p, load h v = Ok (VFunction f) -> fn_initialized f = Some p ->
               map_page h v
               = Throw ("The supplied Page (" +:+ p +:+ ") is already initialized")) /\
  (forall f e, load h v = Ok (VFunction f) -> fn_initialized f = None ->
               fn_router f = None -> Routable h (fn_path f) = Throw e ->
               map_page h v = Throw e) /\
  (forall f r, load h v = Ok (VFunction f) -> fn_initialized f = None ->
               fn_router f = Some r ->
               map_page h v = Ok {| ctor := f; router := r |}).
Proof.
  unfold map_page. repeat split.
  - by intros e ->.
  - intros w -> Hw. simpl. by destruct w.
  - intros f p -> Hp. simpl. by rewrite Hp.
  - intros f e -> Hi Hr He. simpl. by rewrite Hi, Hr, He.
  - intros f r -> Hi Hr. simpl. by rewrite Hi, Hr.
Qed.

Lemma rejected_page_error_witness :
  load Disk.host (VString "/srv/pages/README.json") = Ok VObject /\
  typeof VObject <> Js.TFunction /\
  map_page Disk.host (VString "/srv/pages/README.json") = Throw "Invalid page type: object".
Proof.
  assert (Hl : load Disk.host (VString "/srv/pages/README.json") = Ok VObject)
    by reflexivity.
  assert (Ht : typeof VObject <> Js.TFunction) by discriminate.
  split; [exact Hl |]. split; [exact Ht |].
  exact (proj1 (proj2 (rejected_page_error Disk.host (VString "/srv/pages/README.json")))
           VObject Hl Ht).
Defined.

(** ** What the caches hold *)

Lemma cache_get_value {V : Type} (m : Expirable.t V) now key key' e' :
  Expirable.cache (snd (Expirable.get now key m)) !! key' = Some e' ->
  exists e, Expirable.cache m !! key' = Some e /\ Expirable.value e = Expirable.value e'.
Proof.
  destruct (decide (key = key')) as [<- | Hne]; [| rewrite cache_get_ne by done; eauto].
  unfold Expirable.get. destruct (Expirable.cache m !! key) as [e|] eqn:E.
  - destruct (_ <=? _); simpl; [by rewrite lookup_delete_eq |].
    destruct (Expirable.touch m); simpl.
    + rewrite lookup_insert_eq. intros [= <-]. eauto.
    + rewrite E. intros [= <-]. eauto.
  - simpl. by rewrite E.
Qed.

Lemma filter_pages_head req uri i ps j P kept :
  fst (filter_pages req uri i ps) = (j, P) :: kept ->
  exists before behind,
    ps = before ++ P :: behind /\
    (forall Q, In Q before -> matches req uri Q = false) /\
    matches req uri P = true.
Proof.
  revert i. induction ps as [|Q ps IH]; intros i; simpl; [done |].
  specialize (IH (S i)). destruct (filter_pages req uri (S i) ps) as [kept' calls].
  simpl in IH. unfold matches in *.
  destruct (String.eqb (Js.toLowerCase (fn_method (ctor Q))) _) eqn:Em;
    [destruct (test (router Q) uri) eqn:Et |]; simpl; intros H.
  - injection H as _ <- _. exists [], ps. simpl. by rewrite Em, Et.
  - destruct (IH H) as (before & behind & -> & Hb & HP).
    exists (Q :: before), behind. split; [done |]. split; [| done].
    intros Q' [<- | HQ]; [by rewrite Em, Et | by apply Hb].
  - destruct (IH H) as (before & behind & -> & Hb & HP).
    exists (Q :: before), behind. split; [done |]. split; [| done].
    intros Q' [<- | HQ]; [by rewrite Em | by apply Hb].
Qed.

Lemma first_match_In ps req P : first_match ps req P -> In P ps.
Proof. intros (before & behind & -> & _). apply in_or_app. right. by left. Qed.

Lemma routes_resolved_middlware a now req res :
  routes_resolved a -> routes_resolved (after (middlware a now req res)).
Proof.
  intros Inv key e. rewrite pages_middlware.
  destruct (middlware_cases a now req) as [[R E] | [[E F] | [E (i & P & kept & F)]]].
  - rewrite (middlware_hit _ _ _ _ _ E). cbn [after with_caches routes]. intros H.
    apply cache_get_value in H as (e0 & H0 & <-). by apply (Inv key).
  - rewrite (middlware_forward _ _ _ _ E F). cbn [after with_caches routes]. intros H.
    apply cache_get_value in H as (e0 & H0 & <-). by apply (Inv key).
  - rewrite (middlware_match _ _ _ _ _ _ _ E F). cbn [after with_caches routes].
    destruct (decide (route_id req = key)) as [<- | Hne].
    + rewrite cache_set_eq. intros [= <-]. exists req. split; [done |].
      split; [| done]. by apply (filter_pages_head _ _ _ _ _ _ _ F).
    + rewrite cache_set_ne by done. intros H.
      apply cache_get_value in H as (e0 & H0 & <-). by apply (Inv key).
Qed.

Lemma routes_resolved_serve_all a calls :
  routes_resolved a -> routes_resolved (serve_all a calls).
Proof.
  revert a. induction calls as [|c calls IH]; intros a Inv; simpl; [done |].
  apply IH. by apply routes_resolved_middlware.
Qed.

Lemma routes_resolved_attach h options a : attach h options = Ok a -> routes_resolved a.
Proof.
  intros H. apply attach_Ok in H as (_ & _ & _ & _ & _ & _ & Hr & _).
  intros key e. by rewrite Hr.
Qed.

(** X5. In a closure [attach] returned, after any calls of the middleware,
    every entry of the route cache was resolved for some request with the
    route key it is stored under: its page is registered, it is the first
    registered page matching that request, and its parameters are those the
    page's router extracted from that request.  So every page the middleware
    creates, from the cache or from a scan, is an instance of a registered
    page resolved for a request with the route key of the one it serves. *)
Theorem cached_routes_are_resolved
    (h : Host) (options : option Options) (a : Attached) (calls : list Call) :
  attach h options = Ok a ->
  routes_resolved (serve_all a calls) /\
  forall now req res p,
    page (middlware (serve_all a calls) now req res) = Some p ->
    inst_req p = req /\
    exists req0 P,
      route_id req0 = route_id req /\
      In P (pages a) /\
      first_match (pages a) req0 P /\
      inst_of p = ctor P /\
      inst_params p = exec (router P) (Url.parse (url req0)).
Proof.
  intros Ha.
  assert (Inv : routes_resolved (serve_all a calls))
    by (apply routes_resolved_serve_all; by apply (routes_resolved_attach h options)).
  split; [exact Inv |]. intros now req res p.
  pose proof (pages_serve_all a calls) as Hps.
  destruct (middlware_cases (serve_all a calls) now req)
    as [[R E] | [[E F] | [E (i & P & kept & F)]]].
  - rewrite (middlware_hit _ _ _ _ _ E). simpl. intros [= <-]. split; [done |].
    apply lookup_at_Some in E as (e & He & <- & _).
    destruct (Inv _ _ He) as (req0 & Hid & Hf & Hp). rewrite Hps in Hf.
    exists req0, (route_Page (Expirable.value e)). simpl.
    split; [done |]. split; [by apply (first_match_In _ req0) |]. done.
  - by rewrite (middlware_forward _ _ _ _ E F).
  - rewrite (middlware_match _ _ _ _ _ _ _ E F). simpl. intros [= <-]. split; [done |].
    assert (Hf : first_match (pages a) req P).
    { rewrite <- Hps. by apply (filter_pages_head _ _ _ _ _ _ _ F). }
    exists req, P. simpl. split; [done |]. split; [by apply (first_match_In _ req) |]. done.
Qed.

Lemma cached_routes_are_resolved_witness :
  attach Sample.host (Some Sample.options) = Ok Sample.site /\
  routes_resolved (serve_all Sample.site [mkCall 1000 Sample.get_home fresh_response]).
Proof.
  assert (Ha : attach Sample.host (Some Sample.options) = Ok Sample.site) by reflexivity.
  split; [exact Ha |].
  exact (proj1 (cached_routes_are_resolved Sample.host (Some Sample.options) Sample.site
                  [mkCall 1000 Sample.get_home fresh_response] Ha)).
Defined.

Lemma registry_sound_middlware a now req res :
  routes_resolved a -> registry_sound a ->
  registry_sound (after (middlware a now req res)).
Proof.
  intros Inv Reg key e. rewrite pages_middlware.
  destruct (middlware_cases a now req) as [[R E] | [[E F] | [E (i & P & kept & F)]]].
  - rewrite (middlware_hit _ _ _ _ _ E). cbn [after with_caches instances].
    destruct (decide (instance_key req = key)) as [<- | Hne].
    + rewrite cache_set_eq. intros [= <-]. simpl. split; [done |]. split; [done |].
      apply lookup_at_Some in E as (e & He & <- & _).
      destruct (Inv _ _ He) as (req0 & _ & Hf & _).
      exists (route_Page (Expirable.value e)). split; [| done].
      by apply (first_match_In _ req0).
    + rewrite cache_set_ne by done. apply Reg.
  - rewrite (middlware_forward _ _ _ _ E F). cbn [after with_caches instances]. apply Reg.
  - rewrite (middlware_match _ _ _ _ _ _ _ E F). cbn [after with_caches instances].
    destruct (decide (instance_key req = key)) as [<- | Hne].
    + rewrite cache_set_eq. intros [= <-]. simpl. split; [done |]. split; [done |].
      exists P. split; [| done].
      apply (first_match_In _ req). by apply (filter_pages_head _ _ _ _ _ _ _ F).
    + rewrite cache_set_ne by done. apply Reg.
Qed.

Lemma registry_sound_serve_all a calls :
  routes_resolved a -> registry_sound a -> registry_sound (serve_all a calls).
Proof.
  revert a. induction calls as [|c calls IH]; intros a Inv Reg; simpl; [done |].
  apply IH; [by apply routes_resolved_middlware | by apply registry_sound_middlware].
Qed.

(** X6. In a closure [attach] returned, after any calls of the middleware,
    every entry of the instance registry is a page stored under the registry
    key of the request it was created for, carrying exactly the one error
    listener the middleware registered, bound to that request, and is an
    instance of a registered page. *)
Theorem registry_holds_dispatched_pages
    (h : Host) (options : option Options) (a : Attached) (calls : list Call) :
  attach h options = Ok a ->
  registry_sound (serve_all a calls).
Proof.
  intros Ha. apply registry_sound_serve_all.
  - by apply (routes_resolved_attach h options).
  - apply attach_Ok in Ha as (_ & _ & _ & _ & _ & Hi & _).
    intros key e. by rewrite Hi.
Qed.

Lemma registry_holds_dispatched_pages_witness :
  attach Sample.host (Some Sample.options) = Ok Sample.site /\
  registry_sound
    (serve_all Sample.site [mkCall 1000 Sample.get_home fresh_response;
                            mkCall 2000 Sample.get_home_again fresh_response]).
Proof.
  assert (Ha : attach Sample.host (Some Sample.options) = Ok Sample.site) by reflexivity.
  split; [exact Ha |].
  exact (registry_holds_dispatched_pages Sample.host (Some Sample.options) Sample.site _ Ha).
Defined.

(** ** Keys *)

(** X7. For requests as the HTTP server delivers them (a method without
    [@], a URL in origin form) the route key identifies the method and the
    pathname: two such requests have the same key exactly when they have the
    same method and the same pathname. *)
Theorem route_key_identifies_method_and_pathname (r r' : Request) :
  well_formed r -> well_formed r' ->
  (route_id r = route_id r' <->
   method r = method r' /\
   Url.pathname (Url.parse (url r)) = Url.pathname (Url.parse (url r'))).
Proof.
  intros Hw Hw'. split.
  - by apply route_id_inj.
  - intros [Hm Hp]. unfold route_id. by rewrite Hm, Hp.
Qed.

Lemma route_key_identifies_method_and_pathname_witness :
  well_formed Visitors.alice /\ well_formed Visitors.bob /\
  route_id Visitors.alice = route_id Visitors.bob.
Proof.
  assert (Ha : well_formed Visitors.alice) by (split; [reflexivity | by eexists]).
  assert (Hb : well_formed Visitors.bob) by (split; [reflexivity | by eexists]).
  split; [exact Ha |]. split; [exact Hb |].
  apply (proj2 (route_key_identifies_method_and_pathname _ _ Ha Hb)).
  split; reflexivity.
Defined.

(** X8. On one route, two requests share a registry slot exactly when their
    session identifiers give the same string: different session strings never
    collide, while a request without a session shares the slot of a request
    whose session identifier is the string [undefined]. *)
Theorem registry_key_on_one_route (r r' : Request) :
  route_id r = route_id r' ->
  (instance_key r = instance_key r' <->
   Js.session_to_string (sessionID r) = Js.session_to_string (sessionID r')) /\
  (sessionID r = Js.SUndefined -> sessionID r' = Js.SString "undefined" ->
   instance_key r = instance_key r').
Proof.
  intros Hid. unfold instance_key. rewrite Hid. split.
  - split; [apply append_inj_r | by intros ->].
  - by intros -> ->.
Qed.

Lemma registry_key_on_one_route_witness :
  route_id Visitors.anonymous = route_id Visitors.named_undefined /\
  instance_key Visitors.anonymous = instance_key Visitors.named_undefined.
Proof.
  assert (H : route_id Visitors.anonymous = route_id Visitors.named_undefined)
    by reflexivity.
  split; [exact H |].
  exact (proj2 (registry_key_on_one_route _ _ H) eq_refl eq_refl).
Defined.

(** ** Two requests for one route *)

(** After a scan that kept a page, the route is there for the requests of
    the same route key that come before the entry has been idle for the
    window. *)
Lemma lookup_after_match a now req res i P kept later req' :
  lookup_at now (route_id req) (routes a) = None ->
  fst (filter_pages req (Url.parse (url req)) 0 (pages a)) = (i, P) :: kept ->
  route_id req' = route_id req ->
  later - now < Expirable.expire (routes a) ->
  lookup_at later (route_id req') (routes (after (middlware a now req res)))
  = Some {| route_Page := P;
            route_params := exec (router P) (Url.parse (url req)) |}.
Proof.
  intros E F Hid Hl. rewrite (middlware_match _ _ _ _ _ _ _ E F), Hid.
  cbn [after with_caches routes]. apply lookup_at_set. by rewrite expire_get.
Qed.

Lemma instances_after_match a now req res i P kept :
  lookup_at now (route_id req) (routes a) = None ->
  fst (filter_pages req (Url.parse (url req)) 0 (pages a)) = (i, P) :: kept ->
  instances (after (middlware a now req res))
  = Expirable.set now (instance_key req)
      (instantiate (ctor P) req (exec (router P) (Url.parse (url req)))) (instances a).
Proof. intros E F. by rewrite (middlware_match _ _ _ _ _ _ _ E F). Qed.

(** X9. The route cache is shared between sessions, the registry is not.
    When a request of one session has been resolved by a scan, a request of
    another session for the same method and pathname, made inside the window,
    is served from the cache without any call of the scan; afterwards the
    registry holds both pages, each under its own key, the first still
    stamped with the time of the first call. *)
Theorem sessions_share_the_route_not_the_slot
    (a : Attached) (now later : Z) (req req' : Request) (res res' : Response)
    (i : nat) (P : Page) (kept : list (nat * Page)) :
  lookup_at now (route_id req) (routes a) = None ->
  fst (filter_pages req (Url.parse (url req)) 0 (pages a)) = (i, P) :: kept ->
  route_id req' = route_id req ->
  later - now < Expirable.expire (routes a) ->
  Js.session_to_string (sessionID req') <> Js.session_to_string (sessionID req) ->
  let params := exec (router P) (Url.parse (url req)) in
  let o := middlware a now req res in
  let o' := middlware (after o) later req' res' in
  count is_scan (trace o') = 0%nat /\
  instance_key req <> instance_key req' /\
  Expirable.cache (instances (after o')) !! instance_key req
  = Some (Expirable.mkEntry (instantiate (ctor P) req params) now) /\
  Expirable.cache (instances (after o')) !! instance_key req'
  = Some (Expirable.mkEntry (instantiate (ctor P) req' params) later).
Proof.
  intros E F Hid Hl Hs params o o'.
  pose proof (lookup_after_match a now req res i P kept later req' E F Hid Hl) as E'.
  assert (Hk : instance_key req <> instance_key req').
  { unfold instance_key. rewrite Hid. intros H. apply append_inj_r in H. by apply Hs. }
  unfold o'. rewrite (middlware_hit _ _ _ _ _ E'). cbv zeta.
  cbn [trace after with_caches instances route_Page route_params].
  split; [done |]. split; [done |]. split.
  - rewrite cache_set_ne by done. unfold o.
    rewrite (instances_after_match _ _ _ _ _ _ _ E F). apply cache_set_eq.
  - apply cache_set_eq.
Qed.

Lemma sessions_share_the_route_not_the_slot_witness :
  let o := middlware Sample.site 1000 Visitors.alice fresh_response in
  let o' := middlware (after o) 2000 Visitors.bob fresh_response in
  lookup_at 1000 (route_id Visitors.alice) (routes Sample.site) = None /\
  route_id Visitors.bob = route_id Visitors.alice /\
  2000 - 1000 < Expirable.expire (routes Sample.site) /\
  count is_scan (trace o') = 0%nat /\
  Expirable.cache (instances (after o')) !! "alice:GET@/"
  = Some (Expirable.mkEntry
            (instantiate Sample.home Visitors.alice [("path", "/")]) 1000).
Proof.
  intros o o'.
  assert (E : lookup_at 1000 (route_id Visitors.alice) (routes Sample.site) = None)
    by reflexivity.
  assert (Hid : route_id Visitors.bob = route_id Visitors.alice) by reflexivity.
  assert (Hl : 2000 - 1000 < Expirable.expire (routes Sample.site)) by reflexivity.
  split; [exact E |]. split; [exact Hid |]. split; [exact Hl |].
  destruct (sessions_share_the_route_not_the_slot Sample.site 1000 2000
              Visitors.alice Visitors.bob fresh_response fresh_response
              0%nat Visitors.home_page
              [(1%nat, Visitors.landing_page)] E eq_refl Hid Hl)
    as (H1 & _ & H2 & _); [discriminate |].
  split; [exact H1 | exact H2].
Defined.

(** X10. Within one session a later request for the same route takes the
    slot of the earlier one: after both calls the registry is the registry
    before them with the second page alone stored under the key; the first
    page is no longer reachable through the registry. *)
Theorem later_page_replaces_earlier
    (a : Attached) (now later : Z) (req req' : Request) (res res' : Response)
    (i : nat) (P : Page) (kept : list (nat * Page)) :
  lookup_at now (route_id req) (routes a) = None ->
  fst (filter_pages req (Url.parse (url req)) 0 (pages a)) = (i, P) :: kept ->
  route_id req' = route_id req ->
  later - now < Expirable.expire (routes a) ->
  Js.session_to_string (sessionID req') = Js.session_to_string (sessionID req) ->
  let params := exec (router P) (Url.parse (url req)) in
  let o := middlware a now req res in
  let o' := middlware (after o) later req' res' in
  instance_key req' = instance_key req /\
  Expirable.cache (instances (after o'))
  = <[instance_key req :=
        Expirable.mkEntry (instantiate (ctor P) req' params) later]>
      (Expirable.cache (instances a)).
Proof.
  intros E F Hid Hl Hs params o o'.
  pose proof (lookup_after_match a now req res i P kept later req' E F Hid Hl) as E'.
  assert (Hk : instance_key req' = instance_key req).
  { unfold instance_key. by rewrite Hid, Hs. }
  split; [exact Hk |].
  unfold o'. rewrite (middlware_hit _ _ _ _ _ E'). cbv zeta.
  cbn [after with_caches instances route_Page route_params].
  unfold o. rewrite (instances_after_match _ _ _ _ _ _ _ E F), Hk.
  cbn [Expirable.set Expirable.cache]. apply insert_insert_eq.
Qed.

Lemma later_page_replaces_earlier_witness :
  let o := middlware Sample.site 1000 Visitors.alice fresh_response in
  let o' := middlware (after o) 2000 Visitors.alice_again fresh_response in
  lookup_at 1000 (route_id Visitors.alice) (routes Sample.site) = None /\
  route_id Visitors.alice_again = route_id Visitors.alice /\
  2000 - 1000 < Expirable.expire (routes Sample.site) /\
  Expirable.cache (instances (after o'))
  = <["alice:GET@/" :=
        Expirable.mkEntry
          (instantiate Sample.home Visitors.alice_again [("path", "/")]) 2000]>
      (Expirable.cache (instances Sample.site)).
Proof.
  intros o o'.
  assert (E : lookup_at 1000 (route_id Visitors.alice) (routes Sample.site) = None)
    by reflexivity.
  assert (Hid : route_id Visitors.alice_again = route_id Visitors.alice) by reflexivity.
  assert (Hl : 2000 - 1000 < Expirable.expire (routes Sample.site)) by reflexivity.
  split; [exact E |]. split; [exact Hid |]. split; [exact Hl |].
  exact (proj2 (later_page_replaces_earlier Sample.site 1000 2000
                  Visitors.alice Visitors.alice_again fresh_response fresh_response
                  0%nat Visitors.home_page
                  [(1%nat, Visitors.landing_page)] E eq_refl Hid Hl eq_refl)).
Defined.

(** ** What is cached, and for how long *)

(** X11. A request that is forwarded is not remembered: the route cache has
    no entry under its key afterwards, so the same request, whenever it comes
    again, is looked up, scanned over every registered page and forwarded
    again. *)
Theorem unmatched_request_is_not_cached
    (a : Attached) (now : Z) (req : Request) (res : Response) :
  lookup_at now (route_id req) (routes a) = None ->
  no_match a req ->
  let o := middlware a now req res in
  Expirable.cache (routes (after o)) !! route_id req = None /\
  forall later res',
    let o' := middlware (after o) later req res' in
    forwarded (after o) req res' o' /\
    forall j, (j < length (pages a))%nat -> In (FilterCall j) (trace o').
Proof.
  intros E Hn o.
  assert (F : fst (filter_pages req (Url.parse (url req)) 0 (pages a)) = [])
    by (by apply filter_pages_none).
  assert (Ho : o = middlware a now req res) by done.
  rewrite (middlware_forward _ _ _ _ E F) in Ho.
  assert (Hc : Expirable.cache (routes (after o)) !! route_id req = None).
  { rewrite Ho. cbn [after with_caches routes]. by apply cache_get_miss. }
  split; [exact Hc |]. intros later res' o'.
  assert (E' : lookup_at later (route_id req) (routes (after o)) = None)
    by (by apply lookup_at_absent).
  assert (Hp : pages (after o) = pages a) by (by rewrite Ho).
  split.
  - apply forwarded_miss; [exact E' |]. unfold no_match. by rewrite Hp.
  - intros j Hj. unfold o'. rewrite (in_trace_miss _ _ _ _ _ E') by eauto.
    apply filter_pages_calls_all. rewrite Hp. lia.
Qed.

Lemma unmatched_request_is_not_cached_witness :
  lookup_at 1000 (route_id Sample.get_other) (routes Sample.site) = None /\
  no_match Sample.site Sample.get_other /\
  Expirable.cache
    (routes (after (middlware Sample.site 1000 Sample.get_other fresh_response)))
    !! route_id Sample.get_other = None.
Proof.
  assert (E : lookup_at 1000 (route_id Sample.get_other) (routes Sample.site) = None)
    by reflexivity.
  assert (Hn : no_match Sample.site Sample.get_other).
  { intros Q [<- | [<- | []]]; reflexivity. }
  split; [exact E |]. split; [exact Hn |].
  exact (proj1 (unmatched_request_is_not_cached Sample.site 1000 Sample.get_other
                  fresh_response E Hn)).
Defined.

(** X12. A route resolved by a scan is resolved again once its entry has
    been idle for the window: the same request, coming that late, misses the
    cache, makes the calls of the first request over again, and leaves the
    entry stamped with its own time. *)
Theorem expired_route_is_resolved_again
    (a : Attached) (now later : Z) (req : Request) (res res' : Response)
    (i : nat) (P : Page) (kept : list (nat * Page)) :
  lookup_at now (route_id req) (routes a) = None ->
  fst (filter_pages req (Url.parse (url req)) 0 (pages a)) = (i, P) :: kept ->
  Expirable.expire (routes a) <= later - now ->
  let o := middlware a now req res in
  let o' := middlware (after o) later req res' in
  lookup_at later (route_id req) (routes (after o)) = None /\
  trace o' = trace o /\
  page o' = page o /\
  Expirable.cache (routes (after o')) !! route_id req
  = Some (Expirable.mkEntry
            {| route_Page := P; route_params := exec (router P) (Url.parse (url req)) |}
            later).
Proof.
  intros E F Hl o o'.
  assert (Ho : o = middlware a now req res) by done.
  rewrite (middlware_match _ _ _ _ _ _ _ E F) in Ho. cbv zeta in Ho.
  assert (E' : lookup_at later (route_id req) (routes (after o)) = None).
  { rewrite Ho. cbn [after with_caches routes].
    apply (lookup_at_expired _ _ _ _ (cache_set_eq _ _ _ _)). simpl.
    by rewrite expire_get. }
  assert (F' : fst (filter_pages req (Url.parse (url req)) 0 (pages (after o)))
               = (i, P) :: kept) by (by rewrite Ho).
  split; [exact E' |].
  unfold o'. rewrite (middlware_match _ _ _ _ _ _ _ E' F'). cbv zeta.
  cbn [trace page after with_caches routes].
  split; [by rewrite Ho |]. split; [by rewrite Ho |]. apply cache_set_eq.
Qed.

Lemma expired_route_is_resolved_again_witness :
  let o := middlware Sample.site 1000 Sample.get_home fresh_response in
  let o' := middlware (after o) 301000 Sample.get_home fresh_response in
  lookup_at 1000 (route_id Sample.get_home) (routes Sample.site) = None /\
  Expirable.expire (routes Sample.site) <= 301000 - 1000 /\
  trace o' = trace o.
Proof.
  intros o o'.
  assert (E : lookup_at 1000 (route_id Sample.get_home) (routes Sample.site) = None)
    by reflexivity.
  assert (Hl : Expirable.expire (routes Sample.site) <= 301000 - 1000)
    by (vm_compute; discriminate).
  split; [exact E |]. split; [exact Hl |].
  destruct (expired_route_is_resolved_again Sample.site 1000 301000 Sample.get_home
              fresh_response fresh_response 0%nat Visitors.home_page
              [(1%nat, Visitors.landing_page)] E eq_refl Hl) as (_ & H & _).
  exact H.
Defined.

Lemma cache_get_touched {V : Type} (m : Expirable.t V) now key e :
  Expirable.touch m = true ->
  Expirable.cache m !! key = Some e ->
  now - Expirable.last e < Expirable.expire m ->
  Expirable.cache (snd (Expirable.get now key m)) !! key
  = Some (Expirable.mkEntry (Expirable.value e) now).
Proof.
  intros Ht He Hl. unfold Expirable.get. rewrite He.
  apply Z.leb_gt in Hl. rewrite Hl, Ht. simpl. apply lookup_insert_eq.
Qed.

Lemma cache_get_untouched {V : Type} (m : Expirable.t V) now key e :
  Expirable.touch m = false ->
  Expirable.cache m !! key = Some e ->
  now - Expirable.last e < Expirable.expire m ->
  snd (Expirable.get now key m) = m.
Proof.
  intros Ht He Hl. unfold Expirable.get. rewrite He.
  apply Z.leb_gt in Hl. by rewrite Hl, Ht.
Qed.

Lemma touch_get {V : Type} (m : Expirable.t V) now key :
  Expirable.touch (snd (Expirable.get now key m)) = Expirable.touch m.
Proof.
  unfold Expirable.get. destruct (Expirable.cache m !! key) as [e|]; [| done].
  destruct (_ <=? _); [done |]. by destruct (Expirable.touch m) eqn:E; simpl.
Qed.

(** X13. How long a cached route lives follows the refresh policy of the
    map.  A hit stores nothing in the route cache itself.  With a map that
    refreshes on [get], a route that keeps being requested, each time less
    than the window after the time before, is served from the cache every
    time, for as long as the requests keep coming; with a map that does not,
    a hit leaves the route cache exactly as it was, stamp included. *)
Theorem route_lifetime_follows_the_policy
    (a : Attached) (id : string) (R : Route) (t : Z) :
  Expirable.cache (routes a) !! id = Some (Expirable.mkEntry R t) ->
  (Expirable.touch (routes a) = true ->
   forall cs,
     Forall (fun c => route_id (call_req c) = id) cs ->
     spaced (Expirable.expire (routes a)) t cs ->
     Forall (fun o => count is_scan (trace o) = 0%nat /\
                      count is_routes_set (trace o) = 0%nat /\
                      exists p, page o = Some p /\ inst_of p = ctor (route_Page R) /\
                                inst_params p = route_params R)
            (outcomes a cs)) /\
  (Expirable.touch (routes a) = false ->
   forall now req res,
     route_id req = id ->
     now - t < Expirable.expire (routes a) ->
     routes (after (middlware a now req res)) = routes a).
Proof.
  intros He. split.
  - intros Ht cs. revert a t He Ht.
    induction cs as [|c cs IH]; intros a t He Ht Hid Hsp; simpl; [constructor |].
    inversion Hid as [|? ? Hc Hcs]; subst. destruct Hsp as [Hl Hsp].
    assert (E : lookup_at (call_time c) (route_id (call_req c)) (routes a) = Some R)
      by (by rewrite (lookup_at_live _ _ _ _ He Hl)).
    rewrite (middlware_hit _ _ _ _ _ E). cbv zeta. constructor.
    + cbn [trace page]. split; [done |]. split; [done |]. eauto.
    + cbn [after]. apply (IH _ (call_time c)); cbn [with_caches routes].
      * by rewrite (cache_get_touched _ _ _ _ Ht He Hl).
      * by rewrite touch_get.
      * done.
      * by rewrite expire_get.
  - intros Ht now req res Hid Hl. subst id.
    assert (E : lookup_at now (route_id req) (routes a) = Some R)
      by (by rewrite (lookup_at_live _ _ _ _ He Hl)).
    rewrite (middlware_hit _ _ _ _ _ E). cbn [after with_caches routes].
    by apply (cache_get_untouched _ _ _ _ Ht He Hl).
Qed.

Lemma route_lifetime_follows_the_policy_witness :
  let a := after (middlware Sample.site 1000 Sample.get_home fresh_response) in
  let R := {| route_Page := Visitors.home_page; route_params := [("path", "/")] |} in
  let cs := [mkCall 200000 Sample.get_home_again fresh_response;
             mkCall 400000 Sample.get_home fresh_response] in
  Expirable.cache (routes a) !! "GET@/" = Some (Expirable.mkEntry R 1000) /\
  Expirable.touch (routes a) = true /\
  Forall (fun c => route_id (call_req c) = "GET@/") cs /\
  spaced (Expirable.expire (routes a)) 1000 cs /\
  Forall (fun o => count is_scan (trace o) = 0%nat /\
                   count is_routes_set (trace o) = 0%nat /\
                   exists p, page o = Some p /\ inst_of p = ctor (route_Page R) /\
                             inst_params p = route_params R)
         (outcomes a cs).
Proof.
  intros a R cs.
  assert (He : Expirable.cache (routes a) !! "GET@/" = Some (Expirable.mkEntry R 1000))
    by reflexivity.
  assert (Ht : Expirable.touch (routes a) = true) by reflexivity.
  assert (Hid : Forall (fun c => route_id (call_req c) = "GET@/") cs)
    by (repeat constructor).
  assert (Hsp : spaced (Expirable.expire (routes a)) 1000 cs)
    by (repeat split; reflexivity).
  split; [exact He |]. split; [exact Ht |]. split; [exact Hid |]. split; [exact Hsp |].
  exact (proj1 (route_lifetime_follows_the_policy a "GET@/" R 1000 He) Ht cs Hid Hsp).
Defined.

(** ** The calls of one request *)

Lemma count_filter_calls req uri i ps :
  count is_filter_call (snd (filter_pages req uri i ps)) = length ps /\
  count is_router_test (snd (filter_pages req uri i ps))
  = length (List.filter (method_fits req) ps).
Proof.
  revert i. induction ps as [|P ps IH]; intros i; simpl; [done |].
  destruct (IH (S i)) as [IH1 IH2].
  destruct (filter_pages req uri (S i) ps) as [kept calls]. simpl in IH1, IH2.
  unfold method_fits at 1.
  destruct (String.eqb _ _); [destruct (test _ _) |]; simpl;
    rewrite !count_cons; simpl; by rewrite IH1, IH2.
Qed.

(** X14. Every call of the middleware looks the route up exactly once,
    before anything else, and never both forwards and dispatches.  A call
    that reaches [next] calls it once, last, having created no page and
    stored nothing in either cache; a call that creates a page creates one,
    registers one listener on it, stores it once, last, and does not call
    [next]. *)
Theorem call_never_forwards_and_dispatches
    (a : Attached) (now : Z) (req : Request) (res : Response) :
  let o := middlware a now req res in
  (exists rest, trace o = RoutesGet (route_id req) :: rest /\
                count is_routes_get rest = 0%nat) /\
  (count is_next (trace o) + count is_instances_set (trace o) <= 1)%nat /\
  (count is_next (trace o) <> 0%nat ->
   page o = None /\
   count is_next (trace o) = 1%nat /\
   count is_new (trace o) = 0%nat /\
   count is_on_error (trace o) = 0%nat /\
   count is_instances_set (trace o) = 0%nat /\
   count is_routes_set (trace o) = 0%nat /\
   instances (after o) = instances a /\
   exists front, trace o = front ++ [Next]) /\
  (forall p, page o = Some p ->
   count is_next (trace o) = 0%nat /\
   count is_new (trace o) = 1%nat /\
   count is_on_error (trace o) = 1%nat /\
   count is_instances_set (trace o) = 1%nat /\
   exists front, trace o = front ++ [New (inst_of p) (inst_params p);
                                     OnError (Fivehundered req);
                                     InstancesSet (instance_key req)]).
Proof.
  intros o. unfold o.
  assert (Hc : forall f,
             (forall j, f (FilterCall j) = false) -> (forall j, f (RouterTest j) = false) ->
             count f (snd (filter_pages req (Url.parse (url req)) 0 (pages a))) = 0%nat)
    by (intros; by apply count_scan_calls).
  destruct (middlware_cases a now req) as [[R E] | [[E F] | [E (i & P & kept & F)]]].
  - rewrite (middlware_hit _ _ _ _ _ E). cbv zeta. cbn [trace page].
    split; [eexists; split; [reflexivity | done] |].
    split; [unfold count; simpl; lia |]. split; [intros H; by destruct H |].
    intros p [= <-]. repeat (split; [done |]).
    by exists [RoutesGet (route_id req)].
  - rewrite (middlware_forward _ _ _ _ E F). cbn [trace page after with_caches instances].
    split; [eexists; split; [reflexivity |]; by rewrite count_app, Hc |].
    change (RoutesGet (route_id req) :: ?t ++ [Next])
      with ([RoutesGet (route_id req)] ++ t ++ [Next]).
    rewrite !count_app, !Hc by done.
    split; [unfold count; simpl; lia |]. split; [| done].
    intros _. repeat (split; [done |]).
    exists ([RoutesGet (route_id req)]
              ++ snd (filter_pages req (Url.parse (url req)) 0 (pages a))).
    by rewrite <- app_assoc.
  - rewrite (middlware_match _ _ _ _ _ _ _ E F). cbv zeta. cbn [trace page].
    split; [eexists; split; [reflexivity |]; by rewrite count_app, Hc |].
    change (RoutesGet (route_id req) :: ?t ++ ?u)
      with ([RoutesGet (route_id req)] ++ t ++ u).
    rewrite !count_app, !Hc by done.
    split; [unfold count; simpl; lia |]. split; [intros H; by destruct H |].
    intros p [= <-]. repeat (split; [done |]).
    exists ([RoutesGet (route_id req)]
              ++ snd (filter_pages req (Url.parse (url req)) 0 (pages a))
              ++ [RouterExec i; RoutesSet (route_id req)]).
    by rewrite <- !app_assoc.
Qed.

Lemma call_never_forwards_and_dispatches_witness :
  let o := middlware Sample.site 1000 Sample.get_other fresh_response in
  count is_next (trace o) <> 0%nat /\
  page o = None /\
  count is_instances_set (trace o) = 0%nat.
Proof.
  intros o.
  assert (H : count is_next (trace o) <> 0%nat) by discriminate.
  split; [exact H |].
  destruct (proj1 (proj2 (proj2 (call_never_forwards_and_dispatches Sample.site 1000
                                   Sample.get_other fresh_response))) H)
    as (H1 & _ & _ & _ & H2 & _).
  split; [exact H1 | exact H2].
Defined.

(** X15. The cost of a miss does not depend on where the match is: when the
    route cache has no live entry the filter callback runs once for each
    registered page, [router.test] once for each page whose method is the
    request's up to case, and [router.exec] and [routes.set] once when a page
    was kept and not at all otherwise. *)
Theorem miss_scans_every_page
    (a : Attached) (now : Z) (req : Request) (res : Response) :
  lookup_at now (route_id req) (routes a) = None ->
  let o := middlware a now req res in
  let found := match page o with Some _ => 1%nat | None => 0%nat end in
  count is_filter_call (trace o) = length (pages a) /\
  count is_router_test (trace o) = length (List.filter (method_fits req) (pages a)) /\
  count is_router_exec (trace o) = found /\
  count is_routes_set (trace o) = found.
Proof.
  intros E o found. unfold found, o.
  destruct (count_filter_calls req (Url.parse (url req)) 0 (pages a)) as [H1 H2].
  assert (Hc : forall f,
             (forall j, f (FilterCall j) = false) -> (forall j, f (RouterTest j) = false) ->
             count f (snd (filter_pages req (Url.parse (url req)) 0 (pages a))) = 0%nat)
    by (intros; by apply count_scan_calls).
  destruct (fst (filter_pages req (Url.parse (url req)) 0 (pages a)))
    as [|[i P] kept] eqn:F.
  - rewrite (middlware_forward _ _ _ _ E F). cbn [trace page].
    change (RoutesGet (route_id req) :: ?t ++ [Next])
      with ([RoutesGet (route_id req)] ++ t ++ [Next]).
    rewrite !count_app, H1, H2, !Hc by done. unfold count. simpl. repeat split; lia.
  - rewrite (middlware_match _ _ _ _ _ _ _ E F). cbv zeta. cbn [trace page].
    change (RoutesGet (route_id req) :: ?t ++ ?u)
      with ([RoutesGet (route_id req)] ++ t ++ u).
    rewrite !count_app, H1, H2, !Hc by done. unfold count. simpl. repeat split; lia.
Qed.

Lemma miss_scans_every_page_witness :
  lookup_at 1000 (route_id Sample.get_other) (routes Sample.site) = None /\
  count is_router_test (trace (middlware Sample.site 1000 Sample.get_other fresh_response))
  = 2%nat.
Proof.
  assert (E : lookup_at 1000 (route_id Sample.get_other) (routes Sample.site) = None)
    by reflexivity.
  split; [exact E |].
  exact (proj1 (proj2 (miss_scans_every_page Sample.site 1000 Sample.get_other
                         fresh_response E))).
Defined.

(** ** Requests do not disturb one another *)

Lemma cache_instances_other a now req res key :
  instance_key req <> key ->
  Expirable.cache (instances (after (middlware a now req res))) !! key
  = Expirable.cache (instances a) !! key.
Proof.
  intros Hne.
  destruct (middlware_cases a now req) as [[R E] | [[E F] | [E (i & P & kept & F)]]].
  - rewrite (middlware_hit _ _ _ _ _ E). cbn [after with_caches instances].
    by apply cache_set_ne.
  - by rewrite (middlware_forward _ _ _ _ E F).
  - rewrite (middlware_match _ _ _ _ _ _ _ E F). cbn [after with_caches instances].
    by apply cache_set_ne.
Qed.

(** What a call returns and calls is decided by the pages and by what the
    route cache answers for the key of the request. *)
Lemma middlware_reads_its_route a a' now req res :
  pages a = pages a' ->
  lookup_at now (route_id req) (routes a) = lookup_at now (route_id req) (routes a') ->
  page (middlware a now req res) = page (middlware a' now req res) /\
  trace (middlware a now req res) = trace (middlware a' now req res) /\
  response (middlware a now req res) = response (middlware a' now req res).
Proof.
  intros Hp Hl. rewrite !response_middlware.
  destruct (middlware_cases a now req) as [[R E] | [[E F] | [E (i & P & kept & F)]]].
  - rewrite (middlware_hit _ _ _ _ _ E). rewrite Hl in E.
    by rewrite (middlware_hit _ _ _ _ _ E).
  - rewrite (middlware_forward _ _ _ _ E F). rewrite Hl in E. rewrite Hp in F.
    rewrite (middlware_forward _ _ _ _ E F). by rewrite Hp.
  - rewrite (middlware_match _ _ _ _ _ _ _ E F). rewrite Hl in E. rewrite Hp in F.
    rewrite (middlware_match _ _ _ _ _ _ _ E F). by rewrite Hp.
Qed.

(** X16. A call of the middleware changes the two caches at the keys of its
    own request only: every other route key keeps its entry in the route
    cache and every other registry key keeps its page, stamp included; in
    particular no call removes a page from the registry, whose entries the
    middleware never reads. *)
Theorem call_touches_its_own_keys
    (a : Attached) (now : Z) (req : Request) (res : Response) :
  let o := middlware a now req res in
  (forall key, key <> route_id req ->
               Expirable.cache (routes (after o)) !! key
               = Expirable.cache (routes a) !! key) /\
  (forall key, key <> instance_key req ->
               Expirable.cache (instances (after o)) !! key
               = Expirable.cache (instances a) !! key) /\
  (forall key, is_Some (Expirable.cache (instances a) !! key) ->
               is_Some (Expirable.cache (instances (after o)) !! key)).
Proof.
  intros o. split; [| split].
  - intros key Hne. by apply cache_routes_other.
  - intros key Hne. by apply cache_instances_other.
  - intros key Hk. destruct (decide (instance_key req = key)) as [<- | Hne].
    + unfold o.
      destruct (middlware_cases a now req) as [[R E] | [[E F] | [E (i & P & kept & F)]]].
      * rewrite (middlware_hit _ _ _ _ _ E). cbn [after with_caches instances].
        rewrite cache_set_eq. eauto.
      * by rewrite (middlware_forward _ _ _ _ E F).
      * rewrite (middlware_match _ _ _ _ _ _ _ E F). cbn [after with_caches instances].
        rewrite cache_set_eq. eauto.
    + unfold o. by rewrite cache_instances_other.
Qed.

(** X17. Requests for different routes do not interfere: what a request
    gets (the page created, the calls made, the response object) is the same
    whether or not a request with another route key was served before it,
    whatever the session of either. *)
Theorem other_routes_do_not_interfere
    (a : Attached) (t1 t2 : Z) (req1 req2 : Request) (res1 res2 : Response) :
  route_id req1 <> route_id req2 ->
  let o1 := middlware a t1 req1 res1 in
  let alone := middlware a t2 req2 res2 in
  let second := middlware (after o1) t2 req2 res2 in
  page second = page alone /\
  trace second = trace alone /\
  response second = response alone.
Proof.
  intros Hne o1 alone second. apply middlware_reads_its_route.
  - apply pages_middlware.
  - by apply lookup_routes_other.
Qed.

Lemma other_routes_do_not_interfere_witness :
  route_id Sample.get_other <> route_id Sample.get_home /\
  trace (middlware (after (middlware Sample.site 1000 Sample.get_other fresh_response))
           2000 Sample.get_home fresh_response)
  = trace (middlware Sample.site 2000 Sample.get_home fresh_response).
Proof.
  assert (H : route_id Sample.get_other <> route_id Sample.get_home) by discriminate.
  split; [exact H |].
  exact (proj1 (proj2 (other_routes_do_not_interfere Sample.site 1000 2000
                         Sample.get_other Sample.get_home fresh_response fresh_response
                         H))).
Defined.

Lemma call_touches_its_own_keys_witness :
  let a := after (middlware Sample.site 1000 Visitors.bob fresh_response) in
  "bob:GET@/" <> instance_key Visitors.alice /\
  Expirable.cache (instances (after (middlware a 2000 Visitors.alice fresh_response)))
    !! "bob:GET@/"
  = Expirable.cache (instances a) !! "bob:GET@/".
Proof.
  intros a.
  assert (H : "bob:GET@/" <> instance_key Visitors.alice) by discriminate.
  split; [exact H |].
  exact (proj1 (proj2 (call_touches_its_own_keys a 2000 Visitors.alice fresh_response))
           "bob:GET@/" H).
Defined.
